(** * ScrapeCF: the interactive box editor of [draw_boxes.py]

    A shallow embedding of [scale_for_display] and of the methods of
    [BoxEditor], and the properties of the editing session proved
    about them.

    Modelling conventions.
    - Python [int] is [Z].
    - Python [float] is an exact rational [Q] kept in lowest terms: the
      products and quotients of the source are computed without the
      rounding of binary64.  [round] is Python 3's rounding, half to even.
    - Values that come out of [json.load] are [pyval]; [self.boxes] holds
      such a value, because [load_boxes] stores [data["boxes"]] as it is.
    - Exceptions are the [Raise] results of an error monad.
    - A file is modelled by the document it holds: [json.dump] and
      [json.load] are library code and are taken at the level of the JSON
      data model.  Console output ([print]) is not modelled.
    - OpenCV and the console are library code whose own failures are not
      modelled: [cv2.resize] on an image that scales to an empty one,
      [cv2.rectangle] on coordinates beyond a C [int], a missing display,
      the end of input at the prompt of the key [r], and the overflow of
      an integer too large for a float.  Where the model raises, the
      source raises; the properties of a turn of the loop take the
      success of [draw] as a hypothesis, and those of a resized image
      the construction of the session. *)

From Stdlib Require Import ZArith QArith Qround Qminmax Qabs Qreduction.
From Stdlib Require Import String Ascii List Bool Lia Lqa.
From stdpp Require Import base gmap strings.
Import ListNotations.

Local Open Scope Z_scope.
Set Warnings "-register-all".

(** ** Exceptions and the error monad *)

Inductive exn : Type :=
| TypeError
| ValueError
| KeyError
| IndexError
| AttributeError
| ZeroDivisionError
| FileNotFoundError
| OSError
| JSONDecodeError.

Inductive result (A : Type) : Type :=
| Ok (a : A)
| Raise (x : exn).

Arguments Ok {A} a.
Arguments Raise {A} x.

Definition rbind {A B : Type} (c : result A) (k : A -> result B) : result B :=
  match c with
  | Ok a => k a
  | Raise x => Raise x
  end.

Notation "v <~ c ;; k" := (rbind c (fun v => k))
  (at level 100, c at next level, right associativity).

(** ** Python values *)

Inductive pyval : Type :=
| PNone
| PBool (b : bool)
| PInt (z : Z)
| PFloat (q : Q)
| PStr (s : string)
| PList (l : list pyval)
| PDict (d : list (string * pyval)).

(** [float(b)] for a value used as a number. *)
Definition as_number (v : pyval) : result Q :=
  match v with
  | PInt z => Ok (inject_Z z)
  | PFloat q => Ok q
  | PBool b => Ok (if b then 1%Q else 0%Q)
  | _ => Raise TypeError
  end.

(** ** Floats *)

Definition fmul (a b : Q) : Q := Qred (a * b).

Definition fdiv (a b : Q) : result Q :=
  if Qeq_bool b 0 then Raise ZeroDivisionError else Ok (Qred (a / b)).

(** [round(q)], to the nearest integer, a tie to the even neighbour. *)
Definition py_round (q : Q) : Z :=
  let f := Qfloor q in
  match (q - inject_Z f ?= 1 # 2)%Q with
  | Lt => f
  | Gt => f + 1
  | Eq => if Z.even f then f else f + 1
  end.

(** [int(q)], truncation toward zero. *)
Definition py_int (q : Q) : Z := Z.quot (Qnum q) (Zpos (Qden q)).

(** ** Containers *)

Fixpoint chars (s : string) : list pyval :=
  match s with
  | EmptyString => []
  | String c s' => PStr (String c EmptyString) :: chars s'
  end.

(** The elements a [for] loop or a tuple unpacking draws from a value. *)
Definition py_iter (v : pyval) : result (list pyval) :=
  match v with
  | PList l => Ok l
  | PStr s => Ok (chars s)
  | PDict d => Ok (map (fun kv => PStr (fst kv)) d)
  | _ => Raise TypeError
  end.

(** [len(v)]. *)
Definition py_len (v : pyval) : result Z :=
  match v with
  | PList l => Ok (Z.of_nat (List.length l))
  | PStr s => Ok (Z.of_nat (String.length s))
  | PDict d => Ok (Z.of_nat (List.length d))
  | _ => Raise TypeError
  end.

Definition is_str (k : string) (v : pyval) : bool :=
  match v with
  | PStr s => String.eqb s k
  | _ => false
  end.

Definition is_substring (k s : string) : bool :=
  match String.index 0 k s with
  | Some _ => true
  | None => false
  end.

(** [k in v] for a string [k]. *)
Definition py_contains (k : string) (v : pyval) : result bool :=
  match v with
  | PDict d => Ok (existsb (fun kv => String.eqb (fst kv) k) d)
  | PList l => Ok (existsb (is_str k) l)
  | PStr s => Ok (is_substring k s)
  | _ => Raise TypeError
  end.

Fixpoint assoc (k : string) (d : list (string * pyval)) : option pyval :=
  match d with
  | [] => None
  | (k', v) :: d' => if String.eqb k' k then Some v else assoc k d'
  end.

(** [v[k]] for a string [k]. *)
Definition py_getitem (v : pyval) (k : string) : result pyval :=
  match v with
  | PDict d =>
      match assoc k d with
      | Some x => Ok x
      | None => Raise KeyError
      end
  | _ => Raise TypeError
  end.

(** [v.append(x)]. *)
Definition py_append (v x : pyval) : result pyval :=
  match v with
  | PList l => Ok (PList (l ++ [x]))
  | _ => Raise AttributeError
  end.

(** [a, b, c, d = v]. *)
Definition unpack4 (v : pyval) : result (pyval * pyval * pyval * pyval) :=
  l <~ py_iter v ;;
  match l with
  | [a; b; c; d] => Ok (a, b, c, d)
  | _ => Raise ValueError
  end.

(** ** The display scale *)

Definition MAX_DISPLAY_DIM : Z := 1000.

(** An image is modelled by its shape [(height, width)]. *)
Abbreviation shape := (Z * Z)%type.

(** [cv2.resize] and [img.copy()] are modelled by the shape of the image
    they return, [(int(h * scale), int(w * scale))] and [(h, w)]. *)
Definition scale_for_display (img : shape) (max_dim : Z) : result (shape * Q) :=
  let '(h, w) := img in
  if Z.max h w >? max_dim then
    scale <~ fdiv (inject_Z max_dim) (inject_Z (Z.max h w)) ;;
    Ok ((py_int (fmul (inject_Z h) scale), py_int (fmul (inject_Z w) scale)), scale)
  else
    Ok ((h, w), 1%Q).

(** ** The editor *)

Abbreviation point := (Z * Z)%type.

Record BoxEditor : Type := mkBoxEditor {
  image_path : string;
  h_orig : Z;
  w_orig : Z;
  scale : Q;
  h_disp : Z;
  w_disp : Z;
  drawing : bool;
  start_pt_disp : option point;
  cur_pt_disp : option point;
  boxes : pyval;
  output_path : string;
  mouse_pos : point
}.

Definition set_boxes (e : BoxEditor) (b : pyval) : BoxEditor :=
  mkBoxEditor (image_path e) (h_orig e) (w_orig e) (scale e) (h_disp e)
    (w_disp e) (drawing e) (start_pt_disp e) (cur_pt_disp e) b
    (output_path e) (mouse_pos e).

Definition set_output_path (e : BoxEditor) (p : string) : BoxEditor :=
  mkBoxEditor (image_path e) (h_orig e) (w_orig e) (scale e) (h_disp e)
    (w_disp e) (drawing e) (start_pt_disp e) (cur_pt_disp e) (boxes e)
    p (mouse_pos e).

Definition set_mouse_pos (e : BoxEditor) (p : point) : BoxEditor :=
  mkBoxEditor (image_path e) (h_orig e) (w_orig e) (scale e) (h_disp e)
    (w_disp e) (drawing e) (start_pt_disp e) (cur_pt_disp e) (boxes e)
    (output_path e) p.

Definition set_drag (e : BoxEditor) (d : bool) (s c : option point) : BoxEditor :=
  mkBoxEditor (image_path e) (h_orig e) (w_orig e) (scale e) (h_disp e)
    (w_disp e) d s c (boxes e) (output_path e) (mouse_pos e).

(** [max(0, min(hi, v))]. *)
Definition clamp (hi v : Z) : Z := Z.max 0 (Z.min hi v).

(** The points that OpenCV hands to the callback have integer
    coordinates, on which [int(round(.))] is the identity. *)
Definition disp_to_orig (e : BoxEditor) (pt_disp : point) : result point :=
  let '(x_disp, y_disp) := pt_disp in
  if Qeq_bool (scale e) 0 then Ok (x_disp, y_disp)
  else
    qx <~ fdiv (inject_Z x_disp) (scale e) ;;
    qy <~ fdiv (inject_Z y_disp) (scale e) ;;
    let x := py_round qx in
    let y := py_round qy in
    Ok (clamp (w_orig e - 1) x, clamp (h_orig e - 1) y).

Abbreviation rect := (Z * Z * Z * Z)%type.

(** [int(round(v * self.scale))]. *)
Definition scaled (e : BoxEditor) (v : pyval) : result Z :=
  q <~ as_number v ;;
  Ok (py_round (fmul q (scale e))).

Definition orig_to_disp (e : BoxEditor) (box : pyval) : result rect :=
  u <~ unpack4 box ;;
  let '(x, y, w, h) := u in
  xd <~ scaled e x ;;
  yd <~ scaled e y ;;
  wd <~ scaled e w ;;
  hd <~ scaled e h ;;
  Ok (xd, yd, wd, hd).

(** The list [[x, y, w, h]] of four integers. *)
Definition box_val (b : rect) : pyval :=
  let '(x, y, w, h) := b in PList [PInt x; PInt y; PInt w; PInt h].

Definition add_box_from_disp (e : BoxEditor) (start_disp end_disp : point)
  : result unit * BoxEditor :=
  match disp_to_orig e start_disp with
  | Raise x => (Raise x, e)
  | Ok (x0, y0) =>
      match disp_to_orig e end_disp with
      | Raise x => (Raise x, e)
      | Ok (x1, y1) =>
          let x := Z.min x0 x1 in
          let y := Z.min y0 y1 in
          let w := Z.abs (x1 - x0) in
          let h := Z.abs (y1 - y0) in
          if (w =? 0) || (h =? 0) then (Ok tt, e)
          else
            match py_append (boxes e) (box_val (x, y, w, h)) with
            | Raise x => (Raise x, e)
            | Ok b => (Ok tt, set_boxes e b)
            end
      end
  end.

(** [rx <= x <= rx + rw and ry <= y <= ry + rh], as the loop tests it. *)
Definition inside (r : rect) (pt : point) : bool :=
  let '(rx, ry, rw, rh) := r in
  let '(x, y) := pt in
  (x >=? rx) && (x <=? rx + rw) && (y >=? ry) && (y <=? ry + rh).

Fixpoint scan_boxes (e : BoxEditor) (pt_disp : point) (i : nat)
  (bs : list pyval) : result (option nat) :=
  match bs with
  | [] => Ok None
  | box :: rest =>
      r <~ orig_to_disp e box ;;
      if inside r pt_disp then Ok (Some i)
      else scan_boxes e pt_disp (S i) rest
  end.

Definition box_under_disp_point (e : BoxEditor) (pt_disp : point)
  : result (option nat) :=
  bs <~ py_iter (boxes e) ;;
  scan_boxes e pt_disp 0%nat bs.

(** ** Files *)

(** What a file holds: a JSON document, or text that is not JSON. *)
Inductive content : Type :=
| Document (v : pyval)
| Text (s : string).

(** What the editor sees of the machine: the files by path, the paths
    that [open(path, "w")] can open, and the shape of the images that
    [cv2.imread] can read. *)
Record world : Type := mkWorld {
  files : gmap string content;
  writable : string -> bool;
  images : gmap string shape
}.

(** [open(path, "r")] followed by reading the whole file. *)
Definition open_read (wd : world) (path : string) : result content :=
  match files wd !! path with
  | Some c => Ok c
  | None => Raise FileNotFoundError
  end.

Definition json_load (c : content) : result pyval :=
  match c with
  | Document v => Ok v
  | Text _ => Raise JSONDecodeError
  end.

(** [open(path, "w")], [json.dump] and the closing of the file. *)
Definition write_json (wd : world) (path : string) (v : pyval) : result world :=
  if writable wd path then
    Ok (mkWorld (<[path := Document v]> (files wd)) (writable wd) (images wd))
  else Raise OSError.

(** The body of the [try] block of [load_boxes]. *)
Definition load_boxes_try (wd : world) (e : BoxEditor) (path : string)
  : result unit * BoxEditor :=
  match (c <~ open_read wd path ;; json_load c) with
  | Raise x => (Raise x, e)
  | Ok data =>
      match py_contains "boxes" data with
      | Raise x => (Raise x, e)
      | Ok false => (Ok tt, e)
      | Ok true =>
          match py_getitem data "boxes" with
          | Raise x => (Raise x, e)
          | Ok b =>
              let e' := set_boxes e b in
              match py_len b with
              | Raise x => (Raise x, e')
              | Ok _ => (Ok tt, e')
              end
          end
      end
  end.

(** [except Exception] swallows whatever the body raised. *)
Definition load_boxes (wd : world) (e : BoxEditor) (path : string)
  : result unit * BoxEditor :=
  match load_boxes_try wd e path with
  | (Raise _, e') => (Ok tt, e')
  | (Ok u, e') => (Ok u, e')
  end.

(** [a or b] for an optional string [a]. *)
Definition str_or (a : option string) (b : string) : string :=
  match a with
  | Some EmptyString | None => b
  | Some s => s
  end.

(** The result carries the state after the call also when it raises. *)
Definition save_boxes (wd : world) (e : BoxEditor) (path : option string)
  : result unit * (world * BoxEditor) :=
  let path := str_or path (output_path e) in
  let payload :=
    PDict [("image", PStr (image_path e));
           ("shape", PList [PInt (h_orig e); PInt (w_orig e)]);
           ("boxes", boxes e)]%string in
  match write_json wd path payload with
  | Raise x => (Raise x, (wd, e))
  | Ok wd' => (Ok tt, (wd', set_output_path e path))
  end.

(** ** Construction *)

Definition is_slash (c : ascii) : bool := Ascii.eqb c "/"%char.
Definition is_dot (c : ascii) : bool := Ascii.eqb c "."%char.

(** [os.path.basename] on POSIX paths: what follows the last slash. *)
Fixpoint after_last_slash (p cur : string) : string :=
  match p with
  | EmptyString => cur
  | String c p' =>
      if is_slash c then after_last_slash p' p' else after_last_slash p' cur
  end.

Definition basename (p : string) : string := after_last_slash p p.

(** [p.rfind(".")], counting from [i]. *)
Fixpoint rfind_dot (p : string) (i : nat) (last : option nat) : option nat :=
  match p with
  | EmptyString => last
  | String c p' => rfind_dot p' (S i) (if is_dot c then Some i else last)
  end.

Fixpoint all_dots (p : string) : bool :=
  match p with
  | EmptyString => true
  | String c p' => is_dot c && all_dots p'
  end.

(** [os.path.splitext(p)[0]] for a name without a slash: the extension
    starts at the last dot, unless only dots come before it. *)
Definition splitext_root (p : string) : string :=
  match rfind_dot p 0%nat None with
  | None => p
  | Some i =>
      let root := String.substring 0 i p in
      if all_dots root then p else root
  end.

Definition default_output_name (img_path : string) : string :=
  (splitext_root (basename img_path) ++ "_boxes.json")%string.

Definition BoxEditor_init (wd : world) (img_path : string)
  (out_path load_path : option string) : result BoxEditor :=
  match images wd !! img_path with
  | None => Raise FileNotFoundError
  | Some img =>
      r <~ scale_for_display img MAX_DISPLAY_DIM ;;
      let '(disp, sc) := r in
      let e :=
        mkBoxEditor img_path (fst img) (snd img) sc (fst disp) (snd disp)
          false None None (PList [])
          (str_or out_path (default_output_name img_path)) (0, 0) in
      match load_path with
      | Some EmptyString | None => Ok e
      | Some p => Ok (snd (load_boxes wd e p))
      end
  end.

(** ** Events *)

Inductive mouse_event : Type :=
| EVENT_LBUTTONDOWN
| EVENT_MOUSEMOVE
| EVENT_LBUTTONUP
| EVENT_OTHER.

Definition mouse_callback (e : BoxEditor) (event : mouse_event) (x y : Z)
  : result unit * BoxEditor :=
  let e := set_mouse_pos e (x, y) in
  match event with
  | EVENT_LBUTTONDOWN => (Ok tt, set_drag e true (Some (x, y)) (Some (x, y)))
  | EVENT_MOUSEMOVE =>
      if drawing e then (Ok tt, set_drag e (drawing e) (start_pt_disp e) (Some (x, y)))
      else (Ok tt, e)
  | EVENT_LBUTTONUP =>
      match drawing e, start_pt_disp e with
      | true, Some start =>
          let e1 := set_drag e (drawing e) (start_pt_disp e) (Some (x, y)) in
          match add_box_from_disp e1 start (x, y) with
          | (Raise ex, e2) => (Raise ex, e2)
          | (Ok _, e2) => (Ok tt, set_drag e2 false None None)
          end
      | _, _ => (Ok tt, set_drag e false None None)
      end
  | EVENT_OTHER => (Ok tt, e)
  end.

(** ** The main loop *)

Fixpoint draw_loop (e : BoxEditor) (bs : list pyval) : result unit :=
  match bs with
  | [] => Ok tt
  | box :: rest => _ <~ orig_to_disp e box ;; draw_loop e rest
  end.

(** [draw] reads the state and fails when a box cannot be converted. *)
Definition draw (e : BoxEditor) : result unit :=
  bs <~ py_iter (boxes e) ;;
  _ <~ draw_loop e bs ;;
  _ <~ py_len (boxes e) ;;
  Ok tt.

(** [if v:]. *)
Definition py_truthy (v : pyval) : bool :=
  match v with
  | PNone => false
  | PBool b => b
  | PInt z => negb (z =? 0)
  | PFloat q => negb (Qeq_bool q 0)
  | PStr s => negb (String.eqb s EmptyString)
  | PList l => negb (Nat.eqb (List.length l) 0)
  | PDict d => negb (Nat.eqb (List.length d) 0)
  end.

(** [v.pop()]. *)
Definition py_pop (v : pyval) : result pyval :=
  match v with
  | PList [] => Raise IndexError
  | PList l => Ok (PList (removelast l))
  | PDict _ => Raise TypeError
  | _ => Raise AttributeError
  end.

(** [v.pop(i)]. *)
Definition py_pop_at (v : pyval) (i : nat) : result pyval :=
  match v with
  | PList l =>
      if Nat.ltb i (List.length l) then Ok (PList (firstn i l ++ skipn (S i) l))
      else Raise IndexError
  | PDict _ => Raise KeyError
  | _ => Raise AttributeError
  end.

(** The key read by [cv2.waitKey]; for [r], whether the answer typed at
    the prompt, stripped and in lower case, is [yes]. *)
Inductive key : Type :=
| KEY_ESC
| KEY_q
| KEY_h
| KEY_s
| KEY_u
| KEY_r (yes : bool)
| KEY_d
| KEY_other.

(** One turn of the [while True] loop of [run]; [Ok false] is [break]. *)
Definition run_iteration (wd : world) (e : BoxEditor) (k : key)
  : result bool * (world * BoxEditor) :=
  match draw e with
  | Raise x => (Raise x, (wd, e))
  | Ok _ =>
      match k with
      | KEY_ESC | KEY_q => (Ok false, (wd, e))
      | KEY_h | KEY_other => (Ok true, (wd, e))
      | KEY_s =>
          match save_boxes wd e None with
          | (Raise x, st) => (Raise x, st)
          | (Ok _, st) => (Ok true, st)
          end
      | KEY_u =>
          if py_truthy (boxes e) then
            match py_pop (boxes e) with
            | Raise x => (Raise x, (wd, e))
            | Ok b => (Ok true, (wd, set_boxes e b))
            end
          else (Ok true, (wd, e))
      | KEY_r yes =>
          if yes then (Ok true, (wd, set_boxes e (PList [])))
          else (Ok true, (wd, e))
      | KEY_d =>
          match box_under_disp_point e (mouse_pos e) with
          | Raise x => (Raise x, (wd, e))
          | Ok None => (Ok true, (wd, e))
          | Ok (Some idx) =>
              match py_pop_at (boxes e) idx with
              | Raise x => (Raise x, (wd, e))
              | Ok b => (Ok true, (wd, set_boxes e b))
              end
          end
      end
  end.

(** The states a session goes through: construction on an image that
    [cv2.imread] could read (its dimensions are positive), then mouse
    callbacks and turns of the loop in any order. *)
Inductive reachable : world -> BoxEditor -> Prop :=
| reach_init wd img_path out_path load_path e :
    BoxEditor_init wd img_path out_path load_path = Ok e ->
    0 < h_orig e -> 0 < w_orig e ->
    reachable wd e
| reach_mouse wd e event x y :
    reachable wd e ->
    reachable wd (snd (mouse_callback e event x y))
| reach_key wd e k :
    reachable wd e ->
    reachable (fst (snd (run_iteration wd e k))) (snd (snd (run_iteration wd e k))).

(** ** Notions the statements use *)

(** The boxes of a session that were drawn: rectangles of integers. *)
Definition boxes_val (bs : list rect) : pyval := PList (map box_val bs).

(** The display rectangle of a box of integers. *)
Definition disp_rect (s : Q) (b : rect) : rect :=
  let '(x, y, w, h) := b in
  (py_round (fmul (inject_Z x) s), py_round (fmul (inject_Z y) s),
   py_round (fmul (inject_Z w) s), py_round (fmul (inject_Z h) s)).


Definition is_numeric (v : pyval) : bool :=
  match v with
  | PInt _ | PFloat _ => true
  | _ => false
  end.

(** An entry of the persisted [boxes] array with the shape the format
    asks for: an array of four numbers. *)
Definition well_formed_entry (v : pyval) : bool :=
  match v with
  | PList [a; b; c; d] => is_numeric a && is_numeric b && is_numeric c && is_numeric d
  | _ => false
  end.

(** A point of the image taken to the display and back. *)
Definition roundtrip (e : BoxEditor) (p : point) (w h : Z) : result point :=
  r <~ orig_to_disp e (box_val (fst p, snd p, w, h)) ;;
  let '(xd, yd, _, _) := r in
  disp_to_orig e (xd, yd).

(** The drag of the spec: press at [start], release at [stop]. *)
Definition drag (e : BoxEditor) (start stop : point) : result unit * BoxEditor :=
  let e1 := snd (mouse_callback e EVENT_LBUTTONDOWN (fst start) (snd start)) in
  mouse_callback e1 EVENT_LBUTTONUP (fst stop) (snd stop).

(** What a session never changes after its construction. *)
Definition geometry (e : BoxEditor) : Q * Z * Z := (scale e, h_orig e, w_orig e).

(** A box of integers inside the image: both corners in
    [[0, w_orig) x [0, h_orig)]. *)
Definition within_image (e : BoxEditor) (b : rect) : Prop :=
  let '(x, y, w, h) := b in
  0 <= x /\ 0 <= y /\ x + w <= w_orig e - 1 /\ y + h <= h_orig e - 1.

(** Clamping to the interval [[lo, hi]], as the spec words it. *)
Definition clamp_to (lo hi v : Z) : Z :=
  if v <? lo then lo else if hi <? v then hi else v.

(** A world with two images and no files, for the examples. *)
Definition wd0 : world :=
  mkWorld ∅ (fun _ => true)
    (<["scan.png" := (1000, 2000)]> (<["poster.png" := (4000, 4000)]> ∅)).

(** An editor with the given dimensions and scale and no box. *)
Definition blank (h w : Z) (s : Q) : BoxEditor :=
  mkBoxEditor "scan.png" h w s (py_int (fmul (inject_Z h) s))
    (py_int (fmul (inject_Z w) s)) false None None (PList [])
    "scan_boxes.json" (0, 0).

(** The session on the 4000 x 4000 image: its scale is 1/4. *)
Definition poster_session : BoxEditor :=
  mkBoxEditor "poster.png" 4000 4000 (1 # 4) 1000 1000 false None None
    (PList []) "poster_boxes.json" (0, 0).

(** The session on the 1000 x 2000 image: its scale is 1/2. *)
Definition scan_session : BoxEditor :=
  mkBoxEditor "scan.png" 1000 2000 (1 # 2) 500 1000 false None None
    (PList []) "scan_boxes.json" (0, 0).

(** A box file with one entry of the right shape and one that is not. *)
Definition mixed_entries : list pyval :=
  [box_val (10, 20, 30, 40); PList [PStr "a"; PInt 1; PInt 2; PInt 3]].

Definition mixed_file : content :=
  Document (PDict [("image", PStr "scan.png");
                   ("shape", PList [PInt 1000; PInt 2000]);
                   ("boxes", PList mixed_entries)]).

(** A world with that file, where nothing can be written under [/proc]. *)
Definition wd1 : world :=
  mkWorld (<["mixed.json" := mixed_file]> ∅)
    (fun p => negb (String.prefix "/proc/" p))
    (<["scan.png" := (1000, 2000)]> ∅).

(** ** Notions for the properties of the rest of the editor *)

(** A value that [orig_to_disp] can convert. *)
Definition converts (e : BoxEditor) (b : pyval) : Prop :=
  exists r, orig_to_disp e b = Ok r.

(** A value of a numeric type of Python: an [int], a [float] or a
    [bool], which multiplies as 0 or 1. *)
Definition py_number (v : pyval) : Prop :=
  match v with
  | PInt _ | PFloat _ | PBool _ => True
  | _ => False
  end.

(** An integer that a float holds exactly. *)
Definition float_exact (z : Z) : Prop := Z.abs z <= 2 ^ 53.


(** A name without a slash: a file of the working directory. *)
Fixpoint no_slash (s : string) : bool :=
  match s with
  | EmptyString => true
  | String c s' => negb (is_slash c) && no_slash s'
  end.

(** The flag and the two points of a drag agree: a drag is on exactly
    when its start is recorded, and then its current point is too. *)
Definition drag_consistent (e : BoxEditor) : Prop :=
  (drawing e = true <-> start_pt_disp e <> None) /\
  (start_pt_disp e = None <-> cur_pt_disp e = None).

(** What is fixed when the session is constructed. *)
Definition session_constants (e : BoxEditor)
  : string * Z * Z * Q * Z * Z :=
  (image_path e, h_orig e, w_orig e, scale e, h_disp e, w_disp e).

(** A file that holds under [boxes] a value that is not a list. *)
Definition broken_file : content :=
  Document (PDict [("boxes", PInt 5)]).

(** A world with that file and a text file. *)
Definition wd2 : world :=
  mkWorld (<["broken.json" := broken_file]> (<["notes.txt" := Text "hello"]> ∅))
    (fun _ => true)
    (<["scan.png" := (1000, 2000)]> ∅).




(** * Properties *)

(** ** Rounding and the arithmetic of floats *)

Lemma py_round_near (q : Q) :
  (inject_Z (py_round q) - (1 # 2) <= q /\ q <= inject_Z (py_round q) + (1 # 2))%Q.
Proof.
  unfold py_round.
  pose proof (Qfloor_le q) as Hlo.
  pose proof (Qlt_floor q) as Hhi.
  rewrite inject_Z_plus in Hhi. change (inject_Z 1) with 1%Q in Hhi.
  destruct (Qcompare_spec (q - inject_Z (Qfloor q)) (1 # 2)) as [He | Hl | Hg].
  - assert (Hge : (1 # 2 <= q - inject_Z (Qfloor q))%Q) by (rewrite He; apply Qle_refl).
    assert (Hle : (q - inject_Z (Qfloor q) <= 1 # 2)%Q) by (rewrite He; apply Qle_refl).
    clear He.
    destruct (Z.even (Qfloor q)).
    + split; lra.
    + rewrite inject_Z_plus. change (inject_Z 1) with 1%Q. split; lra.
  - split; lra.
  - rewrite inject_Z_plus. change (inject_Z 1) with 1%Q. split; lra.
Qed.

Lemma py_round_int (z : Z) : py_round (inject_Z z) = z.
Proof.
  unfold py_round. rewrite Qfloor_Z.
  assert (H : (inject_Z z - inject_Z z ?= 1 # 2)%Q = Lt).
  { apply (proj1 (Qlt_alt _ _)). lra. }
  now rewrite H.
Qed.

Lemma fmul_eq (a b : Q) : (fmul a b == a * b)%Q.
Proof. apply Qred_correct. Qed.

Lemma fdiv_ok (a b : Q) : ~ (b == 0)%Q -> fdiv a b = Ok (Qred (a / b)).
Proof.
  intros Hb. unfold fdiv.
  destruct (Qeq_bool b 0) eqn:E; [|reflexivity].
  apply Qeq_bool_eq in E. contradiction.
Qed.


#[local] Instance py_round_comp : Proper (Qeq ==> eq) py_round.
Proof.
  intros p q Hpq. unfold py_round.
  rewrite (Qfloor_comp _ _ Hpq).
  assert (Hc : ((p - inject_Z (Qfloor q)) ?= 1 # 2)%Q
               = ((q - inject_Z (Qfloor q)) ?= 1 # 2)%Q).
  { apply Qcompare_comp; [|reflexivity]. rewrite Hpq. reflexivity. }
  now rewrite Hc.
Qed.

Lemma py_round_fmul (a b : Q) : py_round (fmul a b) = py_round (a * b).
Proof. apply py_round_comp, fmul_eq. Qed.

Lemma py_round_Qred (a : Q) : py_round (Qred a) = py_round a.
Proof. apply py_round_comp, Qred_correct. Qed.

Lemma clamp_bounds (hi v : Z) : 0 <= hi -> 0 <= clamp hi v <= hi.
Proof. unfold clamp. lia. Qed.

Lemma clamp_inside (hi v : Z) : 0 <= v <= hi -> clamp hi v = v.
Proof. unfold clamp. lia. Qed.

Lemma inject_Z_nonzero (z : Z) : z <> 0 -> ~ (inject_Z z == 0)%Q.
Proof.
  intros Hz He. unfold Qeq in He. simpl in He. lia.
Qed.

(** ** The display scale *)

Lemma scale_for_display_small (h w C : Z) :
  Z.max h w <= C -> scale_for_display (h, w) C = Ok ((h, w), 1%Q).
Proof.
  intros Hle. unfold scale_for_display.
  destruct (Z.gtb_spec (Z.max h w) C); [lia | reflexivity].
Qed.

Lemma scale_for_display_large (h w C : Z) :
  0 < h -> 0 < w -> C < Z.max h w ->
  exists disp,
    scale_for_display (h, w) C
    = Ok (disp, Qred (inject_Z C / inject_Z (Z.max h w))).
Proof.
  intros Hh Hw Hlt. unfold scale_for_display.
  destruct (Z.gtb_spec (Z.max h w) C); [|lia].
  rewrite fdiv_ok by (apply inject_Z_nonzero; lia).
  cbn. eauto.
Qed.

Lemma ratio_le_1 (C m : Z) : 0 < m -> C <= m -> (inject_Z C / inject_Z m <= 1)%Q.
Proof.
  intros Hm Hle. apply Qle_shift_div_r.
  - change 0%Q with (inject_Z 0). rewrite <- Zlt_Qlt. exact Hm.
  - rewrite Qmult_1_l. rewrite <- Zle_Qle. exact Hle.
Qed.

Lemma ratio_ge_1 (C m : Z) : 0 < m -> m <= C -> (1 <= inject_Z C / inject_Z m)%Q.
Proof.
  intros Hm Hle. apply Qle_shift_div_l.
  - change 0%Q with (inject_Z 0). rewrite <- Zlt_Qlt. exact Hm.
  - rewrite Qmult_1_l. rewrite <- Zle_Qle. exact Hle.
Qed.

Lemma ratio_pos (C m : Z) : 0 < m -> 0 < C -> (0 < inject_Z C / inject_Z m)%Q.
Proof.
  intros Hm HC. apply Qlt_shift_div_l.
  - change 0%Q with (inject_Z 0). rewrite <- Zlt_Qlt. exact Hm.
  - rewrite Qmult_0_l. change 0%Q with (inject_Z 0). rewrite <- Zlt_Qlt. exact HC.
Qed.

(** The scale chosen for an image and a cap [C], whatever the cap. *)
Lemma scale_for_display_min (h w C : Z) :
  0 < h -> 0 < w ->
  exists disp s,
    scale_for_display (h, w) C = Ok (disp, s) /\
    (s == Qmin 1 (inject_Z C / inject_Z (Z.max h w)))%Q /\
    (Z.max h w <= C -> s = 1%Q /\ disp = (h, w)).
Proof.
  intros Hh Hw.
  destruct (Z_le_gt_dec (Z.max h w) C) as [Hle | Hgt].
  - exists (h, w), 1%Q. split; [now apply scale_for_display_small|].
    split; [|auto].
    symmetry. apply Q.min_l. apply ratio_ge_1; lia.
  - destruct (scale_for_display_large h w C Hh Hw ltac:(lia)) as [disp Hd].
    exists disp, (Qred (inject_Z C / inject_Z (Z.max h w))).
    split; [exact Hd|]. split; [|lia].
    rewrite Qred_correct. symmetry. apply Q.min_r. apply ratio_le_1; lia.
Qed.

(** ** Coordinate conversion *)

Lemma set_boxes_same (e : BoxEditor) : set_boxes e (boxes e) = e.
Proof. now destruct e. Qed.

Lemma orig_to_disp_box (e : BoxEditor) (b : rect) :
  orig_to_disp e (box_val b) = Ok (disp_rect (scale e) b).
Proof. destruct b as [[[x y] w] h]. reflexivity. Qed.

Lemma disp_to_orig_zero (e : BoxEditor) (pt : point) :
  (scale e == 0)%Q -> disp_to_orig e pt = Ok pt.
Proof.
  intros Hz. destruct pt as [x y]. unfold disp_to_orig.
  now rewrite (proj2 (Qeq_bool_iff _ _) Hz).
Qed.

Lemma disp_to_orig_nonzero (e : BoxEditor) (x y : Z) :
  ~ (scale e == 0)%Q ->
  disp_to_orig e (x, y)
  = Ok (clamp (w_orig e - 1) (py_round (inject_Z x / scale e)),
        clamp (h_orig e - 1) (py_round (inject_Z y / scale e))).
Proof.
  intros Hnz. unfold disp_to_orig.
  destruct (Qeq_bool (scale e) 0) eqn:E.
  - apply Qeq_bool_eq in E. contradiction.
  - rewrite !fdiv_ok by assumption. cbn. now rewrite !py_round_Qred.
Qed.

Lemma disp_to_orig_total (e : BoxEditor) (pt : point) :
  exists p, disp_to_orig e pt = Ok p.
Proof.
  destruct pt as [x y].
  destruct (Qeq_dec (scale e) 0) as [Hz | Hnz].
  - eexists. now apply disp_to_orig_zero.
  - eexists. now apply disp_to_orig_nonzero.
Qed.

Lemma scaled_by_one (x : Z) : py_round (fmul (inject_Z x) 1) = x.
Proof.
  rewrite py_round_fmul.
  rewrite (py_round_comp _ (inject_Z x)) by apply Qmult_1_r.
  apply py_round_int.
Qed.

Lemma disp_rect_one (b : rect) : disp_rect 1 b = b.
Proof.
  destruct b as [[[x y] w] h]. unfold disp_rect.
  now rewrite !scaled_by_one.
Qed.

Lemma unscaled_by_one (x : Z) : py_round (inject_Z x / 1) = x.
Proof.
  rewrite (py_round_comp _ (inject_Z x)) by (unfold Qdiv; apply Qmult_1_r).
  apply py_round_int.
Qed.

(** ** Construction of a session *)

Lemma load_boxes_try_frame (wd : world) (e : BoxEditor) (path : string) :
  exists b, snd (load_boxes_try wd e path) = set_boxes e b.
Proof.
  unfold load_boxes_try.
  destruct (c <~ open_read wd path ;; json_load c) as [data | x];
    [| exists (boxes e); now rewrite set_boxes_same].
  destruct (py_contains "boxes" data) as [[|] | x];
    try (exists (boxes e); now rewrite set_boxes_same).
  destruct (py_getitem data "boxes") as [b | x];
    [| exists (boxes e); now rewrite set_boxes_same].
  exists b. now destruct (py_len b).
Qed.

Lemma load_boxes_frame (wd : world) (e : BoxEditor) (path : string) :
  exists b, snd (load_boxes wd e path) = set_boxes e b.
Proof.
  destruct (load_boxes_try_frame wd e path) as [b Hb].
  exists b. unfold load_boxes.
  destruct (load_boxes_try wd e path) as [[u | x] e']; exact Hb.
Qed.

Lemma load_boxes_never_raises (wd : world) (e : BoxEditor) (path : string) :
  fst (load_boxes wd e path) = Ok tt.
Proof.
  unfold load_boxes.
  destruct (load_boxes_try wd e path) as [[[] | x] e']; reflexivity.
Qed.

(** Construction succeeds on every image that could be read, and fixes
    the dimensions and the scale from the image alone. *)
Lemma BoxEditor_init_ok (wd : world) (img_path : string)
  (out_path load_path : option string) (h w : Z) :
  images wd !! img_path = Some (h, w) -> 0 < h -> 0 < w ->
  exists e disp,
    BoxEditor_init wd img_path out_path load_path = Ok e /\
    scale_for_display (h, w) MAX_DISPLAY_DIM = Ok (disp, scale e) /\
    h_orig e = h /\ w_orig e = w /\ (h_disp e, w_disp e) = disp.
Proof.
  intros Himg Hh Hw. unfold BoxEditor_init. rewrite Himg.
  destruct (scale_for_display_min h w MAX_DISPLAY_DIM Hh Hw)
    as (disp & s & Hs & _ & _).
  rewrite Hs. cbn [rbind].
  destruct disp as [hd wdd].
  set (e0 := mkBoxEditor _ _ _ _ _ _ _ _ _ _ _ _).
  assert (Hload : forall p, exists e,
             Ok (snd (load_boxes wd e0 p)) = Ok e /\
             Ok (hd, wdd, s) = Ok (hd, wdd, scale e) /\
             h_orig e = h /\ w_orig e = w /\ (h_disp e, w_disp e) = (hd, wdd)).
  { intros p. destruct (load_boxes_frame wd e0 p) as [b ->].
    eexists. split; [reflexivity|]. cbn. auto. }
  destruct load_path as [[|c p] |].
  - exists e0, (hd, wdd). cbn. auto.
  - destruct (Hload (String c p)) as (e & He & Hrest).
    exists e, (hd, wdd). auto.
  - exists e0, (hd, wdd). cbn. auto.
Qed.

Lemma clamp_is_clamp_to (hi v : Z) : 0 <= hi -> clamp hi v = clamp_to 0 hi v.
Proof.
  intros Hhi. unfold clamp, clamp_to.
  destruct (Z.ltb_spec v 0); destruct (Z.ltb_spec hi v); lia.
Qed.

Lemma py_round_Qabs (q : Q) : (Qabs (inject_Z (py_round q) - q) <= 1 # 2)%Q.
Proof.
  destruct (py_round_near q) as [Hlo Hhi].
  apply Qabs_Qle_condition. split; lra.
Qed.

Lemma scale_for_display_result (h w C : Z) (disp : Z * Z) (s : Q) :
  0 < h -> 0 < w ->
  scale_for_display (h, w) C = Ok (disp, s) ->
  (s == Qmin 1 (inject_Z C / inject_Z (Z.max h w)))%Q.
Proof.
  intros Hh Hw Hs.
  destruct (scale_for_display_min h w C Hh Hw) as (disp' & s' & Hs' & Hmin & _).
  rewrite Hs' in Hs. now injection Hs as _ <-.
Qed.

Lemma scaled_exact_at_one (e : BoxEditor) (b : Z * Z * Z * Z) :
  scale e = 1%Q -> orig_to_disp e (box_val b) = Ok b.
Proof. intros H1. rewrite orig_to_disp_box, H1. now rewrite disp_rect_one. Qed.

(** C7. For every image with positive dimensions, the scale of a session
    that was constructed on it is [min(1, C / maxDim)], with [maxDim] the
    larger of height and width and [C] the cap, 1000 in a session, and
    the same holds of what [scale_for_display] returns for any cap. When
    [maxDim <= C] the image is not resized: the session is constructed,
    its scale is exactly 1, the displayed image has the dimensions of the
    original, and both conversions are the identity, on the boxes whose
    integers a float holds exactly and on the points of the image. *)
Theorem session_scale_is_min_of_one_and_cap_ratio
  (wd : world) (img_path : string) (out_path load_path : option string)
  (h w : Z) :
  images wd !! img_path = Some (h, w) -> 0 < h -> 0 < w ->
  (forall e,
     BoxEditor_init wd img_path out_path load_path = Ok e ->
     (scale e == Qmin 1 (inject_Z MAX_DISPLAY_DIM / inject_Z (Z.max h w)))%Q /\
     h_orig e = h /\ w_orig e = w) /\
  (Z.max h w <= MAX_DISPLAY_DIM ->
   exists e,
     BoxEditor_init wd img_path out_path load_path = Ok e /\
     scale e = 1%Q /\ (h_disp e, w_disp e) = (h, w) /\
     (forall x y bw bh,
        float_exact x -> float_exact y -> float_exact bw -> float_exact bh ->
        orig_to_disp e (box_val (x, y, bw, bh)) = Ok (x, y, bw, bh)) /\
     (forall x y, 0 <= x < w -> 0 <= y < h ->
                  disp_to_orig e (x, y) = Ok (x, y))) /\
  (forall C,
     (forall disp s,
        scale_for_display (h, w) C = Ok (disp, s) ->
        (s == Qmin 1 (inject_Z C / inject_Z (Z.max h w)))%Q) /\
     (Z.max h w <= C -> scale_for_display (h, w) C = Ok ((h, w), 1%Q))).
Proof.
  intros Himg Hh Hw.
  destruct (BoxEditor_init_ok wd img_path out_path load_path h w Himg Hh Hw)
    as (e & disp & Hinit & Hsc & Hho & Hwo & Hdisp).
  split; [|split].
  - intros e' Hinit'. rewrite Hinit in Hinit'. injection Hinit' as <-.
    split; [|auto]. exact (scale_for_display_result _ _ _ _ _ Hh Hw Hsc).
  - intros Hle. rewrite (scale_for_display_small h w _ Hle) in Hsc.
    injection Hsc as Hd H1. symmetry in H1. rewrite <- Hd in Hdisp.
    exists e. split; [exact Hinit|]. split; [exact H1|]. split; [exact Hdisp|].
    split.
    + intros x y bw bh _ _ _ _. now apply scaled_exact_at_one.
    + intros x y Hx Hy. rewrite disp_to_orig_nonzero by (rewrite H1; discriminate).
      rewrite H1, !unscaled_by_one, Hho, Hwo.
      now rewrite !clamp_inside by lia.
  - intros C. split.
    + intros disp' s. now apply scale_for_display_result.
    + apply scale_for_display_small.
Qed.

Lemma session_scale_is_min_of_one_and_cap_ratio_witness :
  images wd0 !! "scan.png" = Some (1000, 2000) /\ 0 < 1000 /\ 0 < 2000 /\
  BoxEditor_init wd0 "scan.png" None None = Ok scan_session /\
  (scale scan_session
   == Qmin 1 (inject_Z MAX_DISPLAY_DIM / inject_Z (Z.max 1000 2000)))%Q /\
  scale scan_session = (1 # 2)%Q.
Proof.
  assert (Hinit : BoxEditor_init wd0 "scan.png" None None = Ok scan_session)
    by (vm_compute; reflexivity).
  split; [reflexivity|]. split; [lia|]. split; [lia|]. split; [exact Hinit|].
  split; [|reflexivity].
  apply (proj1 (session_scale_is_min_of_one_and_cap_ratio wd0 "scan.png" None None
                  1000 2000 eq_refl ltac:(lia) ltac:(lia)) scan_session Hinit).
Defined.

(** C6. [disp_to_orig] divides both coordinates of a display point by the
    scale, rounds each quotient to a nearest integer, and clamps the two
    axes separately, x to [[0, w_orig - 1]] and y to [[0, h_orig - 1]];
    with a scale equal to 0 it returns the point as it is, and nothing is
    divided. *)
Theorem disp_to_orig_divides_rounds_clamps (e : BoxEditor) (x y : Z) :
  1 <= w_orig e -> 1 <= h_orig e ->
  ((scale e == 0)%Q -> disp_to_orig e (x, y) = Ok (x, y)) /\
  (~ (scale e == 0)%Q ->
   exists rx ry : Z,
     (Qabs (inject_Z rx - inject_Z x / scale e) <= 1 # 2)%Q /\
     (Qabs (inject_Z ry - inject_Z y / scale e) <= 1 # 2)%Q /\
     disp_to_orig e (x, y)
     = Ok (clamp_to 0 (w_orig e - 1) rx, clamp_to 0 (h_orig e - 1) ry) /\
     0 <= clamp_to 0 (w_orig e - 1) rx <= w_orig e - 1 /\
     0 <= clamp_to 0 (h_orig e - 1) ry <= h_orig e - 1).
Proof.
  intros Hw Hh. split.
  - apply disp_to_orig_zero.
  - intros Hnz.
    exists (py_round (inject_Z x / scale e)), (py_round (inject_Z y / scale e)).
    split; [apply py_round_Qabs|]. split; [apply py_round_Qabs|].
    rewrite disp_to_orig_nonzero by assumption.
    rewrite <- !clamp_is_clamp_to by lia.
    split; [reflexivity|].
    split; apply clamp_bounds; lia.
Qed.

Lemma disp_to_orig_divides_rounds_clamps_witness :
  1 <= w_orig (blank 1000 2000 (1 # 2)) /\ 1 <= h_orig (blank 1000 2000 (1 # 2)) /\
  disp_to_orig (blank 1000 2000 0) (2500, -7) = Ok (2500, -7) /\
  exists rx ry : Z,
    disp_to_orig (blank 1000 2000 (1 # 2)) (2500, -7)
    = Ok (clamp_to 0 1999 rx, clamp_to 0 999 ry).
Proof.
  split; [cbn; lia|]. split; [cbn; lia|]. split.
  - apply (disp_to_orig_divides_rounds_clamps (blank 1000 2000 0) 2500 (-7));
      [cbn; lia | cbn; lia | reflexivity].
  - destruct (disp_to_orig_divides_rounds_clamps (blank 1000 2000 (1 # 2)) 2500 (-7))
      as [_ H]; [cbn; lia | cbn; lia |].
    destruct H as (rx & ry & _ & _ & Heq & _); [discriminate|].
    exists rx, ry. exact Heq.
Defined.

(** ** There and back *)

(** One axis of the way to the display and back, before clamping: the
    result [r] and the start [x] satisfy [2 s |r - x| <= 1 + s]. *)
Lemma there_and_back_raw (s : Q) (x : Z) :
  (0 < s)%Q ->
  let r := py_round (inject_Z (py_round (inject_Z x * s)) / s) in
  (- (1 + s) <= 2 * s * (inject_Z r - inject_Z x) <= 1 + s)%Q.
Proof.
  intros Hs r.
  set (d := py_round (inject_Z x * s)) in *.
  destruct (py_round_near (inject_Z x * s)) as [Hd1 Hd2]. fold d in Hd1, Hd2.
  destruct (py_round_near (inject_Z d / s)) as [Hr1 Hr2]. fold r in Hr1, Hr2.
  assert (Hq : (inject_Z d / s * s == inject_Z d)%Q).
  { unfold Qdiv. rewrite <- Qmult_assoc, (Qmult_comm (/ s)), Qmult_inv_r by lra. apply Qmult_1_r. }
  set (q := (inject_Z d / s)%Q) in *.
  assert (H1 : (s * (inject_Z r - (1 # 2)) <= s * q)%Q)
    by (apply Qmult_le_l; assumption).
  assert (H2 : (s * q <= s * (inject_Z r + (1 # 2)))%Q)
    by (apply Qmult_le_l; assumption).
  assert (Hq1 : (q * s <= inject_Z d)%Q) by (rewrite Hq; apply Qle_refl).
  assert (Hq2 : (inject_Z d <= q * s)%Q) by (rewrite Hq; apply Qle_refl).
  split; nra.
Qed.

Lemma inject_Z_sub (a b : Z) : inject_Z (a - b) = (inject_Z a - inject_Z b)%Q.
Proof. unfold Z.sub, Qminus. now rewrite inject_Z_plus, inject_Z_opp. Qed.

Lemma there_and_back_axis (s : Q) (x hi : Z) :
  (0 < s)%Q -> 0 <= x <= hi ->
  let x' := clamp hi (py_round (inject_Z (py_round (fmul (inject_Z x) s)) / s)) in
  (2 * s * inject_Z (Z.abs (x' - x)) <= 1 + s)%Q.
Proof.
  intros Hs Hx x'. subst x'. rewrite py_round_fmul.
  pose proof (there_and_back_raw s x Hs) as Hraw. cbv zeta in Hraw.
  set (r := py_round (inject_Z (py_round (inject_Z x * s)) / s)) in *.
  assert (Habs : Z.abs (clamp hi r - x) <= Z.abs (r - x)) by (unfold clamp; lia).
  rewrite Zle_Qle in Habs.
  destruct (Z.abs_spec (r - x)) as [[_ Hr] | [_ Hr]]; rewrite Hr in Habs;
    rewrite ?inject_Z_opp, inject_Z_sub in Habs;
    destruct Hraw as [Hraw1 Hraw2]; nra.
Qed.

Lemma there_and_back_axis_1 (s : Q) (x hi : Z) :
  (1 # 2 <= s)%Q -> 0 <= x <= hi ->
  Z.abs (clamp hi (py_round (inject_Z (py_round (fmul (inject_Z x) s)) / s)) - x) <= 1.
Proof.
  intros Hs Hx.
  assert (Hpos : (0 < s)%Q) by lra.
  pose proof (there_and_back_axis s x hi Hpos Hx) as Hb. cbv zeta in Hb.
  set (k := Z.abs _) in *.
  destruct (Z_le_gt_dec k 1) as [|Hgt]; [assumption|]. exfalso.
  assert (H2 : (2 <= inject_Z k)%Q).
  { change 2%Q with (inject_Z 2). rewrite <- Zle_Qle. lia. }
  nra.
Qed.

(** C3, as the code has it. Taking a point of the image to the display
    and back recovers it, on each axis, within [1 / (2 scale) + 1/2]
    pixels for every positive scale, and therefore within one pixel for
    every scale in [[1/2, 1]]. *)
Theorem roundtrip_error_bound (e : BoxEditor) (x y w h : Z) :
  (0 < scale e)%Q ->
  0 <= x < w_orig e -> 0 <= y < h_orig e ->
  exists x' y',
    roundtrip e (x, y) w h = Ok (x', y') /\
    (2 * scale e * inject_Z (Z.abs (x' - x)) <= 1 + scale e)%Q /\
    (2 * scale e * inject_Z (Z.abs (y' - y)) <= 1 + scale e)%Q /\
    ((1 # 2 <= scale e)%Q -> Z.abs (x' - x) <= 1 /\ Z.abs (y' - y) <= 1).
Proof.
  intros Hs Hx Hy.
  unfold roundtrip. rewrite orig_to_disp_box. cbn [rbind disp_rect fst snd].
  rewrite disp_to_orig_nonzero by lra.
  eexists _, _. split; [reflexivity|].
  split; [apply there_and_back_axis; [assumption | lia]|].
  split; [apply there_and_back_axis; [assumption | lia]|].
  intros Hhalf. split; apply there_and_back_axis_1; (assumption || lia).
Qed.

Lemma roundtrip_error_bound_witness :
  (0 < scale scan_session)%Q /\
  0 <= 3 < w_orig scan_session /\ 0 <= 7 < h_orig scan_session /\
  exists x' y',
    roundtrip scan_session (3, 7) 0 0 = Ok (x', y') /\
    Z.abs (x' - 3) <= 1 /\ Z.abs (y' - 7) <= 1.
Proof.
  split; [reflexivity|]. split; [cbn; lia|]. split; [cbn; lia|].
  destruct (roundtrip_error_bound scan_session 3 7 0 0)
    as (x' & y' & Hrt & _ & _ & Hone);
    [reflexivity | cbn; lia | cbn; lia |].
  exists x', y'. split; [exact Hrt|]. apply Hone. discriminate.
Defined.

(** C3, as the spec states it, fails. In the session on a 4000 x 4000
    image the scale is 1/4; the point (2, 2) goes to the display point
    (0, 0), because 0.5 rounds to the even 0, and comes back as (0, 0),
    two pixels away on each axis. *)
Lemma roundtrip_off_by_two :
  BoxEditor_init wd0 "poster.png" None None = Ok poster_session /\
  (0 < scale poster_session)%Q /\ (scale poster_session <= 1)%Q /\
  0 <= 2 < w_orig poster_session /\ 0 <= 2 < h_orig poster_session /\
  orig_to_disp poster_session (box_val (2, 2, 0, 0)) = Ok (0, 0, 0, 0) /\
  roundtrip poster_session (2, 2) 0 0 = Ok (0, 0) /\
  ~ (Z.abs (0 - 2) <= 1).
Proof.
  split; [vm_compute; reflexivity|].
  split; [reflexivity|]. split; [discriminate|].
  split; [cbn; lia|]. split; [cbn; lia|].
  split; [vm_compute; reflexivity|].
  split; [vm_compute; reflexivity|]. cbn. lia.
Qed.

(** ** Drawing a box *)

(** What [add_box_from_disp] does, with the two end points already taken
    to the image. *)
Lemma add_box_from_disp_eq (e : BoxEditor) (start stop : point)
  (x0 y0 x1 y1 : Z) :
  disp_to_orig e start = Ok (x0, y0) ->
  disp_to_orig e stop = Ok (x1, y1) ->
  add_box_from_disp e start stop
  = if (0 <? Z.abs (x1 - x0)) && (0 <? Z.abs (y1 - y0)) then
      match py_append (boxes e)
              (box_val (Z.min x0 x1, Z.min y0 y1, Z.abs (x1 - x0), Z.abs (y1 - y0)))
      with
      | Ok b => (Ok tt, set_boxes e b)
      | Raise x => (Raise x, e)
      end
    else (Ok tt, e).
Proof.
  intros H0 H1. unfold add_box_from_disp. rewrite H0, H1.
  destruct (Z.eqb_spec (Z.abs (x1 - x0)) 0) as [Hw | Hw];
    destruct (Z.eqb_spec (Z.abs (y1 - y0)) 0) as [Hh | Hh];
    destruct (Z.ltb_spec 0 (Z.abs (x1 - x0)));
    destruct (Z.ltb_spec 0 (Z.abs (y1 - y0)));
    cbn [orb andb]; try reflexivity; lia.
Qed.

Lemma snoc_inj {A : Type} (l : list A) (a b : A) : l ++ [a] = l ++ [b] -> a = b.
Proof. intros H. apply app_inv_head in H. now injection H. Qed.

Lemma snoc_neq {A : Type} (l : list A) (a : A) : l <> l ++ [a].
Proof.
  intros H. apply (f_equal (@List.length A)) in H.
  rewrite List.length_app in H. cbn in H. lia.
Qed.

(** C2. The end of a drag takes both end points to the image, forms the
    rectangle [x = min], [y = min], [w = |dx|], [h = |dy|], and appends it
    to the list exactly when [w > 0] and [h > 0]; otherwise the list, and
    the whole state, stay as they were, and nothing is raised. So a box
    that was appended has a positive width and a positive height. The same
    holds for the press and release of the mouse that make the drag. *)
Theorem add_box_from_disp_appends_iff_positive
  (e : BoxEditor) (bs : list pyval) (start stop : point) :
  boxes e = PList bs ->
  exists x0 y0 x1 y1,
    disp_to_orig e start = Ok (x0, y0) /\
    disp_to_orig e stop = Ok (x1, y1) /\
    let x := Z.min x0 x1 in
    let y := Z.min y0 y1 in
    let w := Z.abs (x1 - x0) in
    let h := Z.abs (y1 - y0) in
    add_box_from_disp e start stop
    = (Ok tt,
       if (0 <? w) && (0 <? h)
       then set_boxes e (PList (bs ++ [box_val (x, y, w, h)]))
       else e) /\
    fst (drag e start stop) = Ok tt /\
    boxes (snd (drag e start stop))
    = (if (0 <? w) && (0 <? h)
       then PList (bs ++ [box_val (x, y, w, h)])
       else PList bs) /\
    (forall b, boxes (snd (add_box_from_disp e start stop)) = PList (bs ++ [b]) ->
               b = box_val (x, y, w, h) /\ 0 < w /\ 0 < h).
Proof.
  intros Hbs.
  destruct (disp_to_orig_total e start) as [[x0 y0] H0].
  destruct (disp_to_orig_total e stop) as [[x1 y1] H1].
  exists x0, y0, x1, y1. split; [exact H0|]. split; [exact H1|].
  cbv zeta.
  assert (Hadd : forall e', boxes e' = PList bs ->
            disp_to_orig e' start = Ok (x0, y0) ->
            disp_to_orig e' stop = Ok (x1, y1) ->
            add_box_from_disp e' start stop
            = (Ok tt,
               if (0 <? Z.abs (x1 - x0)) && (0 <? Z.abs (y1 - y0))
               then set_boxes e' (PList (bs ++
                      [box_val (Z.min x0 x1, Z.min y0 y1,
                                Z.abs (x1 - x0), Z.abs (y1 - y0))]))
               else e')).
  { intros e' Hb' H0' H1'. rewrite (add_box_from_disp_eq e' _ _ _ _ _ _ H0' H1').
    rewrite Hb'. cbn [py_append]. now destruct (_ && _). }
  split; [now apply Hadd|].
  assert (Hdrag : drag e start stop
            = let e1 := set_drag (set_mouse_pos
                          (set_drag (set_mouse_pos e start) true (Some start) (Some start))
                          stop) true (Some start) (Some stop) in
              (Ok tt,
               set_drag
                 (if (0 <? Z.abs (x1 - x0)) && (0 <? Z.abs (y1 - y0))
                  then set_boxes e1 (PList (bs ++
                         [box_val (Z.min x0 x1, Z.min y0 y1,
                                   Z.abs (x1 - x0), Z.abs (y1 - y0))]))
                  else e1) false None None)).
  { unfold drag. destruct start as [sx sy], stop as [tx ty].
    cbn [mouse_callback fst snd]. cbn [drawing start_pt_disp set_drag set_mouse_pos].
    rewrite Hadd; [reflexivity | exact Hbs | exact H0 | exact H1]. }
  rewrite Hdrag. cbv zeta. cbn [fst snd].
  split; [reflexivity|]. split.
  - destruct (_ && _); [reflexivity | exact Hbs].
  - intros b Hb. rewrite (Hadd e Hbs H0 H1) in Hb. cbn [snd] in Hb.
    destruct (Z.ltb_spec 0 (Z.abs (x1 - x0)));
      destruct (Z.ltb_spec 0 (Z.abs (y1 - y0))); cbn [andb] in Hb.
    + cbn in Hb. injection Hb as Hb. apply snoc_inj in Hb. auto.
    + rewrite Hbs in Hb. injection Hb as Hb. now apply snoc_neq in Hb.
    + rewrite Hbs in Hb. injection Hb as Hb. now apply snoc_neq in Hb.
    + rewrite Hbs in Hb. injection Hb as Hb. now apply snoc_neq in Hb.
Qed.

Lemma add_box_from_disp_appends_iff_positive_witness :
  boxes scan_session = PList [] /\
  add_box_from_disp scan_session (100, 100) (300, 200)
  = (Ok tt, set_boxes scan_session (PList [box_val (200, 200, 400, 200)])) /\
  boxes (snd (drag scan_session (100, 100) (100, 200))) = PList [].
Proof.
  split; [reflexivity|]. split.
  - destruct (add_box_from_disp_appends_iff_positive scan_session []
                (100, 100) (300, 200) eq_refl)
      as (x0 & y0 & x1 & y1 & H0 & H1 & Hadd & _).
    vm_compute in H0. vm_compute in H1.
    injection H0 as <- <-. injection H1 as <- <-.
    exact Hadd.
  - destruct (add_box_from_disp_appends_iff_positive scan_session []
                (100, 100) (100, 200) eq_refl)
      as (x0 & y0 & x1 & y1 & H0 & H1 & _ & _ & Hdrag & _).
    vm_compute in H0. vm_compute in H1.
    injection H0 as <- <-. injection H1 as <- <-.
    exact Hdrag.
Defined.

(** ** What a session keeps *)

Lemma scale_for_display_pos (h w C : Z) (disp : shape) (s : Q) :
  0 < h -> 0 < w -> 0 < C ->
  scale_for_display (h, w) C = Ok (disp, s) -> (0 < s)%Q.
Proof.
  intros Hh Hw HC Hs.
  destruct (Z_le_gt_dec (Z.max h w) C) as [Hle | Hgt].
  - rewrite scale_for_display_small in Hs by assumption.
    injection Hs as _ <-. reflexivity.
  - destruct (scale_for_display_large h w C Hh Hw ltac:(lia)) as [d Hd].
    rewrite Hd in Hs. injection Hs as _ <-.
    rewrite Qred_correct. apply ratio_pos; lia.
Qed.

Lemma BoxEditor_init_image (wd : world) (img_path : string)
  (out_path load_path : option string) (e : BoxEditor) :
  BoxEditor_init wd img_path out_path load_path = Ok e ->
  exists h w, images wd !! img_path = Some (h, w).
Proof.
  unfold BoxEditor_init.
  destruct (images wd !! img_path) as [[h w] |]; [eauto | discriminate].
Qed.

Lemma BoxEditor_init_scale_pos (wd : world) (img_path : string)
  (out_path load_path : option string) (e : BoxEditor) :
  BoxEditor_init wd img_path out_path load_path = Ok e ->
  0 < h_orig e -> 0 < w_orig e -> (0 < scale e)%Q.
Proof.
  intros Hinit Hh Hw.
  destruct (BoxEditor_init_image _ _ _ _ _ Hinit) as (h & w & Himg).
  assert (Hdims : h_orig e = h /\ w_orig e = w).
  { revert Hinit. unfold BoxEditor_init. rewrite Himg.
    destruct (scale_for_display (h, w) MAX_DISPLAY_DIM) as [[disp s] | x];
      [cbn [rbind] | discriminate].
    set (e0 := mkBoxEditor _ _ _ _ _ _ _ _ _ _ _ _).
    destruct load_path as [[|c p] |]; intros [= <-]; auto.
    destruct (load_boxes_frame wd e0 (String c p)) as [b ->]. auto. }
  destruct Hdims as [<- <-].
  destruct (BoxEditor_init_ok wd img_path out_path load_path _ _ Himg Hh Hw)
    as (e' & disp & Hinit' & Hsc & _).
  rewrite Hinit in Hinit'. injection Hinit' as <-.
  apply (scale_for_display_pos _ _ MAX_DISPLAY_DIM _ _ Hh Hw eq_refl Hsc).
Qed.

Lemma add_box_from_disp_geometry (e : BoxEditor) (start stop : point) :
  geometry (snd (add_box_from_disp e start stop)) = geometry e.
Proof.
  unfold add_box_from_disp.
  destruct (disp_to_orig e start) as [[x0 y0] | x]; [|reflexivity].
  destruct (disp_to_orig e stop) as [[x1 y1] | x]; [|reflexivity].
  destruct (_ || _); [reflexivity|].
  destruct (py_append _ _); reflexivity.
Qed.

Lemma mouse_callback_geometry (e : BoxEditor) (event : mouse_event) (x y : Z) :
  geometry (snd (mouse_callback e event x y)) = geometry e.
Proof.
  unfold mouse_callback. destruct event; try reflexivity.
  - cbn [drawing set_mouse_pos]. now destruct (drawing e).
  - cbn [drawing start_pt_disp set_mouse_pos].
    destruct (drawing e); [|reflexivity].
    destruct (start_pt_disp e) as [start|]; [|reflexivity].
    match goal with
    | |- context [add_box_from_disp ?e1 ?s ?t] =>
        pose proof (add_box_from_disp_geometry e1 s t) as Hg;
        destruct (add_box_from_disp e1 s t) as [[u | ex] e2]
    end; exact Hg.
Qed.

Lemma save_boxes_geometry (wd : world) (e : BoxEditor) (path : option string) :
  geometry (snd (snd (save_boxes wd e path))) = geometry e.
Proof.
  unfold save_boxes. now destruct (write_json _ _ _).
Qed.

Lemma run_iteration_geometry (wd : world) (e : BoxEditor) (k : key) :
  geometry (snd (snd (run_iteration wd e k))) = geometry e.
Proof.
  unfold run_iteration. destruct (draw e); [|reflexivity].
  destruct k; try reflexivity.
  - pose proof (save_boxes_geometry wd e None) as Hg.
    now destruct (save_boxes wd e None) as [[u | x] st].
  - destruct (py_truthy (boxes e)); [|reflexivity].
    now destruct (py_pop (boxes e)).
  - now destruct yes.
  - destruct (box_under_disp_point e (mouse_pos e)) as [[idx |] | x];
      try reflexivity.
    now destruct (py_pop_at (boxes e) idx).
Qed.

(** In every state of a session the scale and the dimensions of the image
    are positive. *)
Lemma reachable_geometry (wd : world) (e : BoxEditor) :
  reachable wd e -> (0 < scale e)%Q /\ 0 < h_orig e /\ 0 < w_orig e.
Proof.
  induction 1 as [wd ip op lp e Hinit Hh Hw | wd e ev x y Hr IH | wd e k Hr IH].
  - split; [|auto]. eapply BoxEditor_init_scale_pos; eassumption.
  - pose proof (mouse_callback_geometry e ev x y) as Hg.
    unfold geometry in Hg. injection Hg as -> -> ->. exact IH.
  - pose proof (run_iteration_geometry wd e k) as Hg.
    unfold geometry in Hg. injection Hg as -> -> ->. exact IH.
Qed.

Lemma disp_to_orig_in_image (e : BoxEditor) (pt : point) :
  (0 < scale e)%Q -> 0 < h_orig e -> 0 < w_orig e ->
  exists x y, disp_to_orig e pt = Ok (x, y) /\
              0 <= x <= w_orig e - 1 /\ 0 <= y <= h_orig e - 1.
Proof.
  intros Hs Hh Hw. destruct pt as [xd yd].
  rewrite disp_to_orig_nonzero by lra.
  eexists _, _. split; [reflexivity|].
  split; apply clamp_bounds; lia.
Qed.

Lemma add_box_from_disp_within (e : BoxEditor) (bs : list pyval) (b : pyval)
  (start stop : point) :
  (0 < scale e)%Q -> 0 < h_orig e -> 0 < w_orig e ->
  boxes e = PList bs ->
  boxes (snd (add_box_from_disp e start stop)) = PList (bs ++ [b]) ->
  exists r, b = box_val r /\ within_image e r.
Proof.
  intros Hs Hh Hw Hbs Hb.
  destruct (disp_to_orig_in_image e start Hs Hh Hw) as (x0 & y0 & H0 & Hx0 & Hy0).
  destruct (disp_to_orig_in_image e stop Hs Hh Hw) as (x1 & y1 & H1 & Hx1 & Hy1).
  rewrite (add_box_from_disp_eq e _ _ _ _ _ _ H0 H1), Hbs in Hb.
  cbn [py_append] in Hb.
  destruct (_ && _); cbn [snd] in Hb.
  - cbn [boxes set_boxes] in Hb. injection Hb as Hb. apply snoc_inj in Hb.
    exists (Z.min x0 x1, Z.min y0 y1, Z.abs (x1 - x0), Z.abs (y1 - y0)).
    split; [symmetry; exact Hb|].
    unfold within_image. lia.
  - rewrite Hbs in Hb. injection Hb as Hb. now apply snoc_neq in Hb.
Qed.

(** The event left the list as it was, so it cannot be the list with one
    more box. *)
Ltac list_unchanged Hb Hbs :=
  cbn in Hb; rewrite Hbs in Hb; contradiction.

(** C8. In a session, a box that the end of a drag appends lies inside
    the image: [0 <= x], [0 <= y], [x + w <= w_orig - 1] and
    [y + h <= h_orig - 1], because both ends of the drag were clamped.
    This holds for [add_box_from_disp] and for the mouse callback that
    calls it. *)
Theorem appended_box_within_image
  (wd : world) (e : BoxEditor) (bs : list pyval) (b : pyval) :
  reachable wd e -> boxes e = PList bs ->
  (forall start stop,
     boxes (snd (add_box_from_disp e start stop)) = PList (bs ++ [b]) ->
     exists r, b = box_val r /\ within_image e r) /\
  (forall event x y,
     boxes (snd (mouse_callback e event x y)) = PList (bs ++ [b]) ->
     exists r, b = box_val r /\ within_image e r).
Proof.
  intros Hr Hbs.
  destruct (reachable_geometry wd e Hr) as (Hs & Hh & Hw).
  split.
  - intros start stop. now apply add_box_from_disp_within.
  - intros event x y Hb.
    assert (Hsame : PList bs <> PList (bs ++ [b])).
    { intros [= H]. now apply snoc_neq in H. }
    unfold mouse_callback in Hb. destruct event.
    + list_unchanged Hb Hbs.
    + cbn [drawing set_mouse_pos] in Hb.
      destruct (drawing e); list_unchanged Hb Hbs.
    + cbn [drawing start_pt_disp set_mouse_pos] in Hb.
      destruct (drawing e); [| list_unchanged Hb Hbs].
      destruct (start_pt_disp e) as [start|]; [| list_unchanged Hb Hbs].
      match type of Hb with
      | context [add_box_from_disp ?e1 ?s ?t] =>
          pose proof (add_box_from_disp_within e1 bs b s t Hs Hh Hw Hbs) as Hin;
          destruct (add_box_from_disp e1 s t) as [[u | ex] e2]
      end; cbn [snd] in Hb, Hin; apply Hin; exact Hb.
    + list_unchanged Hb Hbs.
Qed.

Lemma appended_box_within_image_witness :
  reachable wd0 scan_session /\ boxes scan_session = PList [] /\
  boxes (snd (add_box_from_disp scan_session (100, 100) (5000, -40)))
  = PList ([] ++ [box_val (200, 0, 1799, 200)]) /\
  exists r, box_val (200, 0, 1799, 200) = box_val r /\ within_image scan_session r.
Proof.
  assert (Hr : reachable wd0 scan_session).
  { apply (reach_init wd0 "scan.png" None None); [vm_compute; reflexivity | cbn; lia | cbn; lia]. }
  split; [exact Hr|]. split; [reflexivity|]. split; [vm_compute; reflexivity|].
  apply (proj1 (appended_box_within_image wd0 scan_session [] _ Hr eq_refl)
           (100, 100) (5000, -40)).
  vm_compute. reflexivity.
Defined.

(** ** Hit testing *)



Lemma py_round_nonneg (q : Q) : (0 <= q)%Q -> 0 <= py_round q.
Proof.
  intros Hq. destruct (py_round_near q) as [_ Hhi].
  destruct (Z_le_gt_dec 0 (py_round q)) as [|Hneg]; [assumption|]. exfalso.
  assert (H : (inject_Z (py_round q) <= -1)%Q).
  { change (-1)%Q with (inject_Z (-1)). rewrite <- Zle_Qle. lia. }
  lra.
Qed.

Lemma scaled_nonneg (s : Q) (z : Z) :
  (0 <= s)%Q -> 0 <= z -> 0 <= py_round (fmul (inject_Z z) s).
Proof.
  intros Hs Hz. rewrite py_round_fmul. apply py_round_nonneg.
  apply Qmult_le_0_compat; [|assumption].
  change 0%Q with (inject_Z 0). now rewrite <- Zle_Qle.
Qed.


(** The search reaches a box that contains the point when every entry
    before it can be converted, and stops there or earlier. *)
Lemma scan_boxes_reaches (e : BoxEditor) (pt : point) (l : list pyval)
  (n i : nat) (b : pyval) (r : rect) :
  nth_error l i = Some b -> orig_to_disp e b = Ok r -> inside r pt = true ->
  (forall k c, (k < i)%nat -> nth_error l k = Some c ->
               exists rc, orig_to_disp e c = Ok rc) ->
  exists j,
    (j <= i)%nat /\ scan_boxes e pt n l = Ok (Some (n + j)%nat) /\
    ((forall k c rc, (k < i)%nat -> nth_error l k = Some c ->
                     orig_to_disp e c = Ok rc -> inside rc pt = false) ->
     j = i).
Proof.
  revert n i. induction l as [|c l IH]; intros n i Hi Hb Hin Hconv;
    [now destruct i|].
  cbn [scan_boxes]. destruct i as [|i].
  - injection Hi as ->. rewrite Hb. cbn [rbind]. rewrite Hin.
    exists 0%nat. split; [lia|]. split; [do 2 f_equal; lia | auto].
  - destruct (Hconv 0%nat c ltac:(lia) eq_refl) as [rc Hc].
    rewrite Hc. cbn [rbind]. destruct (inside rc pt) eqn:Hrc.
    + exists 0%nat. split; [lia|]. split; [do 2 f_equal; lia|].
      intros Hmiss. specialize (Hmiss 0%nat c rc ltac:(lia) eq_refl Hc). congruence.
    + destruct (IH (S n) i Hi Hb Hin) as (j & Hj & Hscan & Hfirst).
      { intros k c' Hk Hc'. apply (Hconv (S k)); [lia | exact Hc']. }
      exists (S j). split; [lia|]. split.
      * rewrite Hscan. do 2 f_equal. lia.
      * intros Hmiss. f_equal. apply Hfirst.
        intros k c' rc' Hk Hc'. apply (Hmiss (S k)); [lia | exact Hc'].
Qed.



(** C10. The test of [box_under_disp_point] is closed on the four edges
    of the display rectangle, which is the rectangle that [orig_to_disp]
    itself returns for the box. For a box of non-negative width and
    height and a scale that is not negative, a point on the right or the
    left edge within the closed vertical range, or on the bottom or the
    top edge within the closed horizontal range, is inside. When the
    entries before the box can be converted, the search then answers
    with a position not after that of the box, and with the position of
    the box itself when no earlier rectangle contains the point. *)
Theorem box_under_disp_point_closed_edges
  (e : BoxEditor) (l : list pyval) (i : nat)
  (bx by_ bw bh xd yd wd hd x y : Z) :
  boxes e = PList l ->
  (0 <= scale e)%Q -> 0 <= bw -> 0 <= bh ->
  nth_error l i = Some (box_val (bx, by_, bw, bh)) ->
  orig_to_disp e (box_val (bx, by_, bw, bh)) = Ok (xd, yd, wd, hd) ->
  (forall k c, (k < i)%nat -> nth_error l k = Some c ->
               exists rc, orig_to_disp e c = Ok rc) ->
  ((x = xd + wd \/ x = xd) /\ yd <= y <= yd + hd) \/
  ((y = yd + hd \/ y = yd) /\ xd <= x <= xd + wd) ->
  inside (xd, yd, wd, hd) (x, y) = true /\
  exists j,
    (j <= i)%nat /\
    box_under_disp_point e (x, y) = Ok (Some j) /\
    ((forall k c rc, (k < i)%nat -> nth_error l k = Some c ->
                     orig_to_disp e c = Ok rc -> inside rc (x, y) = false) ->
     j = i).
Proof.
  intros Hl Hs Hw Hh Hnth Hrect Hconv Hedge.
  assert (Hwd : 0 <= wd /\ 0 <= hd).
  { rewrite orig_to_disp_box in Hrect. unfold disp_rect in Hrect.
    injection Hrect as _ _ <- <-.
    split; apply scaled_nonneg; assumption. }
  assert (Hin : inside (xd, yd, wd, hd) (x, y) = true).
  { unfold inside. rewrite !andb_true_iff.
    repeat split; (apply Z.geb_le || apply Z.leb_le); lia. }
  split; [exact Hin|].
  destruct (scan_boxes_reaches e (x, y) l 0 i _ _ Hnth Hrect Hin Hconv)
    as (j & Hj & Hscan & Hfirst).
  exists j. split; [exact Hj|]. split; [|exact Hfirst].
  unfold box_under_disp_point. rewrite Hl. cbn [py_iter rbind]. exact Hscan.
Qed.

Lemma box_under_disp_point_closed_edges_witness :
  let A := box_val (600, 200, 100, 200) in
  let B := box_val (200, 200, 400, 200) in
  let e := set_boxes scan_session (PList [A; B]) in
  (0 <= scale e)%Q /\ 0 <= 400 /\ 0 <= 200 /\
  orig_to_disp e B = Ok (100, 100, 200, 100) /\
  orig_to_disp e A = Ok (300, 100, 50, 100) /\
  inside (100, 100, 200, 100) (300, 200) = true /\
  exists j, (j <= 1)%nat /\ box_under_disp_point e (300, 200) = Ok (Some j).
Proof.
  intros A B e.
  split; [discriminate|]. split; [lia|]. split; [lia|].
  split; [reflexivity|]. split; [reflexivity|].
  destruct (box_under_disp_point_closed_edges e [A; B] 1
              200 200 400 200 100 100 200 100 300 200)
    as (Hin & j & Hj & Hhit & _);
    [reflexivity | discriminate | lia | lia | reflexivity | reflexivity | |
     left; split; [left; reflexivity | lia] |].
  - intros [|k] c Hk Hc; [|lia]. injection Hc as <-. eexists. reflexivity.
  - split; [exact Hin|]. exists j. split; [exact Hj | exact Hhit].
Defined.

(** ** Loading and saving *)

Lemma assoc_existsb (k : string) (d : list (string * pyval)) (v : pyval) :
  assoc k d = Some v -> existsb (fun kv => String.eqb (fst kv) k) d = true.
Proof.
  induction d as [|[k' v'] d IH]; cbn; [discriminate|].
  destruct (String.eqb k' k); [reflexivity | exact IH].
Qed.

Lemma load_boxes_stores_value (wd : world) (e : BoxEditor) (path : string)
  (d : list (string * pyval)) (b : pyval) :
  files wd !! path = Some (Document (PDict d)) ->
  assoc "boxes" d = Some b ->
  load_boxes wd e path = (Ok tt, set_boxes e b).
Proof.
  intros Hfile Hb. unfold load_boxes, load_boxes_try, open_read.
  rewrite Hfile. cbn [rbind json_load py_contains py_getitem].
  rewrite (assoc_existsb _ _ _ Hb), Hb.
  now destruct (py_len b).
Qed.

(** C1, as the code has it. [load_boxes] stores the [boxes] array of the
    file as it is: every entry, of the right shape or not, in the order
    of the file, and raises nothing to the caller, whatever the file
    holds. *)
Theorem load_boxes_keeps_every_entry (wd : world) (e : BoxEditor)
  (path : string) (d : list (string * pyval)) (entries : list pyval) :
  files wd !! path = Some (Document (PDict d)) ->
  assoc "boxes" d = Some (PList entries) ->
  load_boxes wd e path = (Ok tt, set_boxes e (PList entries)) /\
  boxes (snd (load_boxes wd e path)) = PList entries /\
  (forall wd' e' path', fst (load_boxes wd' e' path') = Ok tt).
Proof.
  intros Hfile Hb.
  rewrite (load_boxes_stores_value wd e path d _ Hfile Hb).
  split; [reflexivity|]. split; [reflexivity|].
  intros wd' e' path'. apply load_boxes_never_raises.
Qed.

Lemma load_boxes_keeps_every_entry_witness :
  files wd1 !! "mixed.json" = Some mixed_file /\
  load_boxes wd1 scan_session "mixed.json"
  = (Ok tt, set_boxes scan_session (PList mixed_entries)).
Proof.
  split; [reflexivity|].
  destruct (load_boxes_keeps_every_entry wd1 scan_session "mixed.json"
              [("image", PStr "scan.png");
               ("shape", PList [PInt 1000; PInt 2000]);
               ("boxes", PList mixed_entries)] mixed_entries eq_refl eq_refl)
    as [Hload _].
  exact Hload.
Defined.

(** C1, as the spec states it, fails. The file [mixed.json] holds one
    entry of the right shape, [[10, 20, 30, 40]], and one that is not,
    [["a", 1, 2, 3]]; the session that loads it, at construction or
    later, has both in its list, not only the first. *)
Lemma load_boxes_keeps_malformed_entry :
  map well_formed_entry mixed_entries = [true; false] /\
  filter well_formed_entry mixed_entries = [box_val (10, 20, 30, 40)] /\
  load_boxes wd1 scan_session "mixed.json"
  = (Ok tt, set_boxes scan_session (PList mixed_entries)) /\
  BoxEditor_init wd1 "scan.png" None (Some "mixed.json")
  = Ok (set_boxes scan_session (PList mixed_entries)) /\
  boxes (snd (load_boxes wd1 scan_session "mixed.json"))
  <> PList (filter well_formed_entry mixed_entries) /\
  py_len (boxes (snd (load_boxes wd1 scan_session "mixed.json"))) = Ok 2.
Proof.
  split; [reflexivity|]. split; [reflexivity|].
  split; [vm_compute; reflexivity|]. split; [vm_compute; reflexivity|].
  split; [|vm_compute; reflexivity].
  vm_compute. discriminate.
Qed.


Lemma save_boxes_keeps_boxes (wd : world) (e : BoxEditor) (path : option string) :
  boxes (snd (snd (save_boxes wd e path))) = boxes e.
Proof. unfold save_boxes. now destruct (write_json _ _ _). Qed.




(** C9. A save that fails leaves the session as it was: the state after
    it is the state before it, the list of boxes included, and no file
    was written. This holds for [save_boxes] and for the turn of the loop
    that calls it on the key [s]. *)
Theorem failed_save_keeps_boxes (wd wd' : world) (e e' : BoxEditor)
  (path : option string) (x : exn) :
  save_boxes wd e path = (Raise x, (wd', e')) ->
  boxes e' = boxes e /\ e' = e /\
  (forall x2 wd2 e2,
     run_iteration wd e KEY_s = (Raise x2, (wd2, e2)) -> boxes e2 = boxes e).
Proof.
  intros Hsave.
  assert (Hst : e' = e).
  { unfold save_boxes in Hsave.
    destruct (write_json _ _ _); [discriminate|].
    now injection Hsave as _ _ <-. }
  subst e'. split; [reflexivity|]. split; [reflexivity|].
  intros x2 wd2 e2 Hrun. unfold run_iteration in Hrun.
  destruct (draw e); [|injection Hrun as _ _ <-; reflexivity].
  pose proof (save_boxes_keeps_boxes wd e None) as Hb.
  destruct (save_boxes wd e None) as [[u | x3] [wd3 e3]]; [discriminate|].
  injection Hrun as _ _ <-. exact Hb.
Qed.

Lemma failed_save_keeps_boxes_witness :
  let e := set_boxes scan_session (boxes_val [(10, 20, 30, 40)]) in
  save_boxes wd1 e (Some "/proc/boxes.json") = (Raise OSError, (wd1, e)) /\
  boxes e = boxes_val [(10, 20, 30, 40)].
Proof.
  intros e.
  assert (Hsave : save_boxes wd1 e (Some "/proc/boxes.json") = (Raise OSError, (wd1, e)))
    by reflexivity.
  split; [exact Hsave|].
  destruct (failed_save_keeps_boxes wd1 wd1 e e (Some "/proc/boxes.json") OSError Hsave)
    as [Hb _].
  exact Hb.
Defined.

(** * Further properties of the editor *)

(** ** Loading *)

Lemma assoc_None_existsb (k : string) (d : list (string * pyval)) :
  assoc k d = None -> existsb (fun kv => String.eqb (fst kv) k) d = false.
Proof.
  induction d as [|[k' v'] d IH]; cbn; [reflexivity|].
  destruct (String.eqb k' k); [discriminate | exact IH].
Qed.

(** X1. [load_boxes] changes the session only when the file holds a JSON
    object with a [boxes] key. A missing file, a file that is not JSON, a
    JSON value that is not an object (also a list or a string that
    contains ["boxes"]) and an object without the key all leave the
    session exactly as it was, and nothing is raised. A session that is
    constructed with such a file as its load path is the session that is
    constructed without a load path. *)
Theorem load_boxes_unusable_file_keeps_session
  (wd : world) (e : BoxEditor) (path : string) :
  (forall d b, files wd !! path = Some (Document (PDict d)) ->
               assoc "boxes" d = Some b -> False) ->
  load_boxes wd e path = (Ok tt, e) /\
  (forall img_path out_path,
     BoxEditor_init wd img_path out_path (Some path)
     = BoxEditor_init wd img_path out_path None).
Proof.
  intros Hno.
  assert (Hload : forall e0, load_boxes wd e0 path = (Ok tt, e0)).
  { intros e0. unfold load_boxes, load_boxes_try, open_read.
    destruct (files wd !! path) as [[v | t] |]; cbn [rbind json_load];
      try reflexivity.
    destruct v as [| b | z | q | s | l | d]; cbn [py_contains]; try reflexivity.
    - now destruct (is_substring "boxes" s).
    - now destruct (existsb (is_str "boxes") l).
    - destruct (assoc "boxes" d) as [b|] eqn:Hb.
      + exfalso. exact (Hno d b eq_refl Hb).
      + now rewrite (assoc_None_existsb _ _ Hb). }
  split; [apply Hload|].
  intros img_path out_path. unfold BoxEditor_init.
  destruct (images wd !! img_path) as [img |]; [|reflexivity].
  destruct (scale_for_display img MAX_DISPLAY_DIM) as [[disp s] | x];
    [cbn [rbind] | reflexivity].
  destruct path as [|c p]; [reflexivity|]. now rewrite Hload.
Qed.

Lemma load_boxes_unusable_file_keeps_session_witness :
  load_boxes wd2 scan_session "absent.json" = (Ok tt, scan_session) /\
  load_boxes wd2 scan_session "notes.txt" = (Ok tt, scan_session).
Proof.
  split.
  - apply (proj1 (load_boxes_unusable_file_keeps_session wd2 scan_session "absent.json"
                    ltac:(intros d b H; vm_compute in H; discriminate))).
  - apply (proj1 (load_boxes_unusable_file_keeps_session wd2 scan_session "notes.txt"
                    ltac:(intros d b H; vm_compute in H; discriminate))).
Defined.

(** ** What can be converted and drawn *)

Lemma as_number_ok (v : pyval) :
  (exists q, as_number v = Ok q) <-> py_number v.
Proof.
  destruct v; cbn; split; try tauto; try (intros [q Hq]; discriminate); eauto.
Qed.

Lemma scaled_ok (e : BoxEditor) (v : pyval) :
  (exists z, scaled e v = Ok z) <-> py_number v.
Proof.
  rewrite <- as_number_ok. unfold scaled.
  destruct (as_number v) as [q | x]; cbn [rbind].
  - split; eauto.
  - split; intros [z Hz]; discriminate.
Qed.

Lemma scaled_raises (e : BoxEditor) (v : pyval) (x : exn) :
  scaled e v = Raise x -> x = TypeError.
Proof.
  unfold scaled. destruct v; cbn; congruence.
Qed.

Lemma chars_not_number (s : string) (v : pyval) : In v (chars s) -> ~ py_number v.
Proof.
  induction s as [|c s IH]; cbn; [tauto|].
  intros [<- | Hin]; [|auto]. cbn. tauto.
Qed.

Lemma orig_to_disp_four (e : BoxEditor) (a b c d : pyval) :
  (exists r, orig_to_disp e (PList [a; b; c; d]) = Ok r) <->
  py_number a /\ py_number b /\ py_number c /\ py_number d.
Proof.
  rewrite <- !(scaled_ok e).
  unfold orig_to_disp. cbn [unpack4 py_iter rbind].
  destruct (scaled e a) as [xa|]; cbn [rbind];
    [| split; [intros [r Hr]; discriminate | intros [[z Hz] _]; discriminate]].
  destruct (scaled e b) as [xb|]; cbn [rbind];
    [| split; [intros [r Hr]; discriminate | intros (_ & [z Hz] & _); discriminate]].
  destruct (scaled e c) as [xc|]; cbn [rbind];
    [| split; [intros [r Hr]; discriminate | intros (_ & _ & [z Hz] & _); discriminate]].
  destruct (scaled e d) as [xd|]; cbn [rbind];
    [| split; [intros [r Hr]; discriminate | intros (_ & _ & _ & [z Hz]); discriminate]].
  split; eauto 10.
Qed.

Lemma unpack4_first (l : list pyval) (r : pyval * pyval * pyval * pyval) :
  (forall x, In x l -> ~ py_number x) ->
  (l0 <~ Ok l ;;
   match l0 with
   | [a; b; c; d] => Ok (a, b, c, d)
   | _ => Raise ValueError
   end) = Ok r ->
  let '(a, b, c, d) := r in ~ py_number a.
Proof.
  intros Hl. destruct r as [[[a b] c] d]. cbn [rbind].
  destruct l as [|a' [|b' [|c' [|d' [|? ?]]]]]; try discriminate.
  intros [= -> -> -> ->]. apply Hl. now left.
Qed.

(** X2. [orig_to_disp] converts only lists of four numbers (integers,
    reals and booleans): when it returns a rectangle, its argument is
    such a list. A list of another length raises
    [ValueError]; a list of four values whose first is not a number
    raises [TypeError]; and a list of four values one of which is not a
    number raises. *)
Theorem orig_to_disp_converts_only_four_numbers (e : BoxEditor) (v : pyval) :
  (converts e v ->
   exists a b c d, v = PList [a; b; c; d] /\
                   py_number a /\ py_number b /\
                   py_number c /\ py_number d) /\
  (forall l, v = PList l -> List.length l <> 4%nat ->
             orig_to_disp e v = Raise ValueError) /\
  (forall a b c d, v = PList [a; b; c; d] -> ~ py_number a ->
                   orig_to_disp e v = Raise TypeError) /\
  (forall a b c d, v = PList [a; b; c; d] ->
     ~ (py_number a /\ py_number b /\ py_number c /\ py_number d) ->
     exists x, orig_to_disp e v = Raise x).
Proof.
  split; [|split; [|split]].
  - intros [r Hr]. unfold orig_to_disp, unpack4 in Hr.
    destruct v as [| b | z | q | s | l | d]; cbn [py_iter rbind] in Hr;
      try discriminate.
    + exfalso.
      destruct (match chars s with
                | [a; b; c; d] => Ok (a, b, c, d)
                | _ => Raise ValueError
                end) as [[[[a b] c] d] | x] eqn:Hu; [|discriminate].
      pose proof (unpack4_first (chars s) (a, b, c, d) (chars_not_number s) Hu) as Hna.
      cbn [rbind] in Hr.
      destruct (scaled e a) as [xa|] eqn:Ha; [|discriminate].
      apply Hna, (scaled_ok e). eauto.
    + destruct l as [|a [|b [|c [|d [|? ?]]]]]; try discriminate.
      exists a, b, c, d. split; [reflexivity|].
      apply (orig_to_disp_four e). exists r. exact Hr.
    + exfalso.
      destruct (match map (fun kv : string * pyval => PStr (fst kv)) d with
                | [a; b; c; d0] => Ok (a, b, c, d0)
                | _ => Raise ValueError
                end) as [[[[a b] c] d0] | x] eqn:Hu; [|discriminate].
      assert (Hkeys : forall x, In x (map (fun kv : string * pyval => PStr (fst kv)) d)
                                -> ~ py_number x).
      { intros x Hx. apply in_map_iff in Hx as [kv [<- _]]. cbn. tauto. }
      pose proof (unpack4_first _ (a, b, c, d0) Hkeys Hu) as Hna.
      cbn [rbind] in Hr.
      destruct (scaled e a) as [xa|] eqn:Ha; [|discriminate].
      apply Hna, (scaled_ok e). eauto.
  - intros l -> Hlen. unfold orig_to_disp, unpack4. cbn [py_iter rbind].
    destruct l as [|a [|b [|c [|d [|? ?]]]]]; try reflexivity.
    now cbn in Hlen.
  - intros a b c d -> Hna. unfold orig_to_disp. cbn [unpack4 py_iter rbind].
    destruct (scaled e a) as [xa|] eqn:Ha; cbn [rbind].
    + exfalso. apply Hna, (scaled_ok e). eauto.
    + f_equal. now apply scaled_raises in Ha.
  - intros a b c d -> Hn.
    destruct (orig_to_disp e (PList [a; b; c; d])) as [r | x] eqn:Hr; [|eauto].
    exfalso. apply Hn, (orig_to_disp_four e). eauto.
Qed.

Lemma orig_to_disp_converts_only_four_numbers_witness :
  converts scan_session (box_val (10, 20, 30, 40)) /\
  orig_to_disp scan_session (PList [PStr "a"; PInt 1; PInt 2; PInt 3]) = Raise TypeError /\
  orig_to_disp scan_session (PList [PInt 1; PInt 2; PInt 3]) = Raise ValueError.
Proof.
  pose proof (orig_to_disp_converts_only_four_numbers scan_session
                (PList [PStr "a"; PInt 1; PInt 2; PInt 3])) as (_ & _ & Hty & _).
  pose proof (orig_to_disp_converts_only_four_numbers scan_session
                (PList [PInt 1; PInt 2; PInt 3])) as (_ & Hval & _).
  split; [|split].
  - eexists. reflexivity.
  - apply (Hty _ _ _ _ eq_refl). cbn. tauto.
  - apply (Hval _ eq_refl). cbn. lia.
Defined.

Lemma draw_loop_ok (e : BoxEditor) (l : list pyval) :
  draw_loop e l = Ok tt <-> Forall (converts e) l.
Proof.
  induction l as [|b l IH]; cbn [draw_loop].
  - split; [constructor | reflexivity].
  - destruct (orig_to_disp e b) as [r | x] eqn:Hb; cbn [rbind].
    + rewrite IH. split.
      * intros Hl. constructor; [exists r; exact Hb | exact Hl].
      * intros Hl. now inversion Hl.
    + split; [discriminate|]. intros Hl. inversion Hl as [|? ? [r Hr] _].
      congruence.
Qed.

Lemma draw_list (e : BoxEditor) (l : list pyval) :
  boxes e = PList l -> draw e = (_ <~ draw_loop e l ;; Ok tt).
Proof.
  intros Hl. unfold draw. rewrite Hl. cbn [py_iter py_len rbind].
  now destruct (draw_loop e l).
Qed.

(** X3. With a list of boxes, [draw] succeeds only when every entry of
    the list can be converted. When an entry cannot, every turn of the
    main loop raises before the key is looked at, whatever the key, and
    leaves the session and the files as they were: no box can be removed
    and nothing can be saved from inside the loop. *)
Theorem unconvertible_box_stops_the_loop (e : BoxEditor) (l : list pyval) :
  boxes e = PList l ->
  (draw e = Ok tt -> Forall (converts e) l) /\
  (forall b x, In b l -> orig_to_disp e b = Raise x ->
   forall wd k, exists x', run_iteration wd e k = (Raise x', (wd, e))).
Proof.
  intros Hl.
  assert (Hiff : draw e = Ok tt -> Forall (converts e) l).
  { rewrite (draw_list e l Hl). intros Hd. apply draw_loop_ok.
    destruct (draw_loop e l) as [[] | x]; [reflexivity | discriminate]. }
  split; [exact Hiff|].
  intros b x Hb Hx wd k. unfold run_iteration.
  destruct (draw e) as [[] | x'] eqn:Hdraw; [|eauto].
  exfalso. specialize (Hiff eq_refl).
  destruct (proj1 (List.Forall_forall _ _) Hiff b Hb) as [r Hr]. congruence.
Qed.

Lemma unconvertible_box_stops_the_loop_witness :
  let e := set_boxes scan_session (PList mixed_entries) in
  boxes e = PList mixed_entries /\
  run_iteration wd1 e KEY_s = (Raise TypeError, (wd1, e)) /\
  exists x, run_iteration wd1 e KEY_u = (Raise x, (wd1, e)).
Proof.
  intros e. split; [reflexivity|]. split; [vm_compute; reflexivity|].
  destruct (unconvertible_box_stops_the_loop e mixed_entries eq_refl) as [_ Hstop].
  apply (Hstop (PList [PStr "a"; PInt 1; PInt 2; PInt 3]) TypeError);
    [right; left; reflexivity | reflexivity].
Defined.

(** ** Saving *)

(** The document that [save_boxes] writes for a session. *)
Lemma save_boxes_outcome (wd : world) (e : BoxEditor) (path : option string) :
  let p := str_or path (output_path e) in
  let doc := Document
               (PDict [("image", PStr (image_path e));
                       ("shape", PList [PInt (h_orig e); PInt (w_orig e)]);
                       ("boxes", boxes e)]) in
  save_boxes wd e path
  = if writable wd p
    then (Ok tt, (mkWorld (<[p := doc]> (files wd)) (writable wd) (images wd),
                  set_output_path e p))
    else (Raise OSError, (wd, e)).
Proof.
  intros p doc. unfold save_boxes, write_json. fold p.
  now destruct (writable wd p).
Qed.

(** X5. A save remembers where it wrote: after a save that succeeded,
    with or without a path, a save without a path writes the same file
    again and changes nothing, neither the files nor the session. *)
Theorem save_boxes_again_changes_nothing
  (wd wd' : world) (e e' : BoxEditor) (path : option string) :
  save_boxes wd e path = (Ok tt, (wd', e')) ->
  output_path e' = str_or path (output_path e) /\
  save_boxes wd' e' None = (Ok tt, (wd', e')).
Proof.
  intros Hsave. rewrite save_boxes_outcome in Hsave.
  destruct (writable wd (str_or path (output_path e))) eqn:Hw; [|discriminate].
  injection Hsave as <- <-. split; [reflexivity|].
  rewrite save_boxes_outcome. cbn [str_or output_path set_output_path writable].
  rewrite Hw. cbn [files images image_path h_orig w_orig boxes].
  rewrite insert_insert_eq. reflexivity.
Qed.

Lemma save_boxes_again_changes_nothing_witness :
  exists wd' e',
    save_boxes wd1 scan_session (Some "out.json") = (Ok tt, (wd', e')) /\
    output_path e' = "out.json" /\
    save_boxes wd' e' None = (Ok tt, (wd', e')).
Proof.
  destruct (save_boxes wd1 scan_session (Some "out.json")) as [r [wd' e']] eqn:Hsave.
  assert (Hr : r = Ok tt).
  { rewrite save_boxes_outcome in Hsave. cbn in Hsave. now injection Hsave as <- _ _. }
  subst r.
  destruct (save_boxes_again_changes_nothing wd1 wd' scan_session e' _ Hsave)
    as [Hp Hagain].
  exists wd', e'. split; [reflexivity|]. split; [exact Hp | exact Hagain].
Defined.



(** ** Searching any list of boxes *)






(** ** The keys *)



Lemma py_pop_list (l : list pyval) :
  l <> [] -> py_pop (PList l) = Ok (PList (removelast l)).
Proof. destruct l; [contradiction | reflexivity]. Qed.

Lemma run_iteration_KEY_u (wd : world) (e : BoxEditor) (l : list pyval) :
  boxes e = PList l -> draw e = Ok tt ->
  run_iteration wd e KEY_u = (Ok true, (wd, set_boxes e (PList (removelast l)))).
Proof.
  intros Hl Hdraw. unfold run_iteration. rewrite Hdraw, Hl.
  destruct l as [|b l].
  - cbn. now rewrite <- Hl, set_boxes_same.
  - cbn [py_truthy List.length Nat.eqb negb].
    now rewrite py_pop_list by discriminate.
Qed.

(** X8. In a turn of the loop whose [draw] succeeded, the key [u] on a
    list of boxes removes the last box and nothing else: a list that ends
    with a box [b] loses [b], and on the empty list the whole state stays
    as it is. It raises nothing in either case, and the files are not
    touched. *)
Theorem undo_removes_last_box (wd : world) (e : BoxEditor) (l : list pyval) :
  boxes e = PList l -> draw e = Ok tt ->
  run_iteration wd e KEY_u = (Ok true, (wd, set_boxes e (PList (removelast l)))) /\
  (l = [] -> run_iteration wd e KEY_u = (Ok true, (wd, e))) /\
  (forall l' b, l = l' ++ [b] ->
     run_iteration wd e KEY_u = (Ok true, (wd, set_boxes e (PList l')))).
Proof.
  intros Hl Hdraw. rewrite (run_iteration_KEY_u wd e l Hl Hdraw).
  split; [reflexivity|]. split.
  - intros ->. cbn [removelast]. now rewrite <- Hl, set_boxes_same.
  - intros l' b ->. now rewrite removelast_last.
Qed.

Lemma undo_removes_last_box_witness :
  let e := set_boxes scan_session (boxes_val [(10, 20, 30, 40); (5, 5, 5, 5)]) in
  draw e = Ok tt /\
  run_iteration wd1 e KEY_u
  = (Ok true, (wd1, set_boxes scan_session (boxes_val [(10, 20, 30, 40)]))).
Proof.
  intros e. split; [reflexivity|].
  exact (proj2 (proj2 (undo_removes_last_box wd1 e _ eq_refl eq_refl))
           [box_val (10, 20, 30, 40)] (box_val (5, 5, 5, 5)) eq_refl).
Defined.

(** The boxes after a press and a release: the list as it was, or the
    list with one box of integers more. *)
Lemma drag_boxes (e : BoxEditor) (l : list pyval) (start stop : point) :
  boxes e = PList l ->
  scale (snd (drag e start stop)) = scale e /\
  (boxes (snd (drag e start stop)) = PList l \/
   exists r, boxes (snd (drag e start stop)) = PList (l ++ [box_val r])).
Proof.
  intros Hl. unfold drag. destruct start as [sx sy], stop as [tx ty].
  cbn [mouse_callback fst snd]. cbn [drawing start_pt_disp set_drag set_mouse_pos].
  match goal with
  | |- context [add_box_from_disp ?e' ?s ?t] =>
      set (e1 := e');
      destruct (disp_to_orig_total e1 s) as [[x0 y0] H0];
      destruct (disp_to_orig_total e1 t) as [[x1 y1] H1];
      rewrite (add_box_from_disp_eq e1 s t _ _ _ _ H0 H1)
  end.
  change (boxes e1) with (boxes e). rewrite Hl. cbn [py_append].
  destruct (_ && _); cbn [snd scale boxes set_drag set_boxes].
  - split; [reflexivity|]. right. eauto.
  - split; [reflexivity|]. left. exact Hl.
Qed.

(** X9. A drag followed by the key [u], in a turn of the loop whose
    [draw] succeeded: when the drag appended a box, the list is
    afterwards the list before the drag; when the drag was discarded as
    degenerate, the key removes the last box that was there before. *)
Theorem drag_then_undo (wd : world) (e : BoxEditor) (l : list pyval)
  (start stop : point) :
  boxes e = PList l ->
  let e1 := snd (drag e start stop) in
  let e2 := snd (snd (run_iteration wd e1 KEY_u)) in
  draw e1 = Ok tt ->
  fst (run_iteration wd e1 KEY_u) = Ok true /\
  (boxes e1 <> PList l -> boxes e2 = PList l) /\
  (boxes e1 = PList l -> boxes e2 = PList (removelast l)).
Proof.
  intros Hl. cbv zeta.
  destruct (drag_boxes e l start stop Hl) as [_ Hcase].
  set (e1 := snd (drag e start stop)) in *. intros Hdraw.
  destruct Hcase as [Hsame | [r Hmore]].
  - rewrite (run_iteration_KEY_u wd e1 l Hsame Hdraw).
    cbn [fst snd boxes set_boxes]. split; [reflexivity|]. split; [contradiction | reflexivity].
  - rewrite (run_iteration_KEY_u wd e1 _ Hmore Hdraw).
    cbn [fst snd boxes set_boxes]. rewrite removelast_last.
    split; [reflexivity|]. split; [reflexivity|].
    intros Hsame. rewrite Hmore in Hsame. injection Hsame as Hsame.
    symmetry in Hsame. now apply snoc_neq in Hsame.
Qed.

Lemma drag_then_undo_witness :
  let e := set_boxes scan_session (boxes_val [(10, 20, 30, 40)]) in
  draw (snd (drag e (100, 100) (300, 200))) = Ok tt /\
  draw (snd (drag e (100, 100) (100, 100))) = Ok tt /\
  boxes (snd (snd (run_iteration wd1 (snd (drag e (100, 100) (300, 200))) KEY_u)))
  = boxes_val [(10, 20, 30, 40)] /\
  boxes (snd (snd (run_iteration wd1 (snd (drag e (100, 100) (100, 100))) KEY_u)))
  = boxes_val [].
Proof.
  intros e.
  assert (H1 : draw (snd (drag e (100, 100) (300, 200))) = Ok tt) by (vm_compute; reflexivity).
  assert (H2 : draw (snd (drag e (100, 100) (100, 100))) = Ok tt) by (vm_compute; reflexivity).
  split; [exact H1|]. split; [exact H2|]. split.
  - apply (proj1 (proj2 (drag_then_undo wd1 e _ (100, 100) (300, 200) eq_refl H1))).
    vm_compute. discriminate.
  - apply (proj2 (proj2 (drag_then_undo wd1 e _ (100, 100) (100, 100) eq_refl H2))).
    vm_compute. reflexivity.
Defined.




Lemma save_boxes_frame (wd : world) (e : BoxEditor) (path : option string) :
  exists p, snd (snd (save_boxes wd e path)) = set_output_path e p.
Proof.
  rewrite save_boxes_outcome.
  destruct (writable wd _); cbn [snd]; [eauto|].
  exists (output_path e). now destruct e.
Qed.

(** X11. What a turn of the main loop never does, whatever the key and
    whether or not it raises: it never changes the image path, the
    dimensions, the scale, the drag in progress or the mouse position;
    it changes the files only for the key [s], and the list of boxes
    only for the keys [u], [d] and a confirmed [r]. It ends the loop
    exactly for [ESC] and [q], after a [draw] that succeeded. *)
Theorem run_iteration_frame (wd : world) (e : BoxEditor) (k : key) :
  let r := fst (run_iteration wd e k) in
  let wd' := fst (snd (run_iteration wd e k)) in
  let e' := snd (snd (run_iteration wd e k)) in
  session_constants e' = session_constants e /\
  (drawing e', start_pt_disp e', cur_pt_disp e', mouse_pos e')
  = (drawing e, start_pt_disp e, cur_pt_disp e, mouse_pos e) /\
  match k with KEY_s => True | _ => wd' = wd end /\
  match k with
  | KEY_u | KEY_d | KEY_r true => True
  | _ => boxes e' = boxes e
  end /\
  (r = Ok false <-> draw e = Ok tt /\ (k = KEY_ESC \/ k = KEY_q)).
Proof.
  cbv zeta. unfold run_iteration.
  destruct (draw e) as [[] | x] eqn:Hdraw.
  - destruct k as [| | | | | [|] | |]; cbn [fst snd];
      try (repeat split; try reflexivity; try tauto; try discriminate;
           intros [_ [H | H]]; discriminate).
    + destruct (save_boxes_frame wd e None) as [p Hp].
      destruct (save_boxes wd e None) as [[u | x] [wd1 e1]]; cbn [fst snd] in *;
        subst e1; repeat split; try reflexivity; try discriminate;
        intros [_ [H | H]]; discriminate.
    + destruct (py_truthy (boxes e));
        [destruct (py_pop (boxes e)) |]; cbn [fst snd];
        repeat split; try reflexivity; try discriminate;
        intros [_ [H | H]]; discriminate.
    + destruct (box_under_disp_point e (mouse_pos e)) as [[i |] | x];
        [destruct (py_pop_at (boxes e) i) | |]; cbn [fst snd];
        repeat split; try reflexivity; try discriminate;
        intros [_ [H | H]]; discriminate.
  - cbn [fst snd]. repeat split; try reflexivity; try discriminate.
    + now destruct k.
    + now destruct k as [| | | | | [|] | |].
    + intros [H _]. discriminate.
Qed.

(** ** The mouse *)

Lemma add_box_from_disp_frame (e : BoxEditor) (start stop : point) :
  exists b, snd (add_box_from_disp e start stop) = set_boxes e b.
Proof.
  unfold add_box_from_disp.
  destruct (disp_to_orig e start) as [[x0 y0] | ?];
    [| exists (boxes e); now rewrite set_boxes_same].
  destruct (disp_to_orig e stop) as [[x1 y1] | ?];
    [| exists (boxes e); now rewrite set_boxes_same].
  destruct (_ || _); [exists (boxes e); now rewrite set_boxes_same|].
  destruct (py_append _ _) as [b | ?]; [now exists b|].
  exists (boxes e). now rewrite set_boxes_same.
Qed.

(** X12. What a mouse callback does whatever the event: it records the
    position of the mouse, and never changes the image path, the
    dimensions, the scale or the output path. Only the release of the
    button can change the list of boxes or raise; and a release or a
    move with no drag in progress changes nothing but the position. *)
Theorem mouse_callback_frame (e : BoxEditor) (event : mouse_event) (x y : Z) :
  let r := fst (mouse_callback e event x y) in
  let e' := snd (mouse_callback e event x y) in
  mouse_pos e' = (x, y) /\
  session_constants e' = session_constants e /\
  output_path e' = output_path e /\
  (event <> EVENT_LBUTTONUP -> r = Ok tt /\ boxes e' = boxes e) /\
  (drawing e = false -> r = Ok tt /\ boxes e' = boxes e) /\
  (drawing e = false -> start_pt_disp e = None -> cur_pt_disp e = None ->
   event <> EVENT_LBUTTONDOWN -> e' = set_mouse_pos e (x, y)).
Proof.
  cbv zeta.
  assert (Hidle : drawing e = false -> start_pt_disp e = None ->
                  cur_pt_disp e = None ->
                  set_drag (set_mouse_pos e (x, y)) false None None
                  = set_mouse_pos e (x, y)).
  { destruct e. cbn. now intros -> -> ->. }
  unfold mouse_callback. destruct event.
  - cbn. repeat split; auto. intros _ _ _ H. contradiction.
  - cbn [drawing set_mouse_pos]. destruct (drawing e) eqn:Hd; cbn [fst snd].
    + cbn. repeat split; auto; discriminate.
    + cbn. repeat split; auto.
  - cbn [drawing start_pt_disp set_mouse_pos].
    destruct (drawing e) eqn:Hd.
    + destruct (start_pt_disp e) as [start|] eqn:Hst.
      * match goal with
        | |- context [add_box_from_disp ?e1 ?s ?t] =>
            destruct (add_box_from_disp_frame e1 s t) as [b Hb];
            destruct (add_box_from_disp e1 s t) as [[u | ex] e2]
        end; cbn [snd] in Hb; subst e2; cbn;
          repeat split; auto; try discriminate; contradiction.
      * cbn. repeat split; auto; discriminate.
    + cbn [fst snd]. split; [reflexivity|].
      split; [reflexivity|]. split; [reflexivity|].
      split; [intros H; contradiction|]. split; [auto|].
      intros _ Hs Hc _. now apply Hidle.
  - cbn. repeat split; auto.
Qed.

(** X13. The direction of a drag does not matter: exchanging the point
    of the press and the point of the release gives the same outcome and
    the same box. *)
Theorem add_box_from_disp_symmetric (e : BoxEditor) (start stop : point) :
  add_box_from_disp e start stop = add_box_from_disp e stop start.
Proof.
  destruct (disp_to_orig_total e start) as [[x0 y0] H0].
  destruct (disp_to_orig_total e stop) as [[x1 y1] H1].
  rewrite (add_box_from_disp_eq e start stop _ _ _ _ H0 H1).
  rewrite (add_box_from_disp_eq e stop start _ _ _ _ H1 H0).
  replace (Z.abs (x0 - x1)) with (Z.abs (x1 - x0)) by lia.
  replace (Z.abs (y0 - y1)) with (Z.abs (y1 - y0)) by lia.
  now rewrite (Z.min_comm x1 x0), (Z.min_comm y1 y0).
Qed.

Lemma run_iteration_editor_frame (wd : world) (e : BoxEditor) (k : key) :
  exists b p, snd (snd (run_iteration wd e k)) = set_output_path (set_boxes e b) p.
Proof.
  assert (Hsame : exists b p, e = set_output_path (set_boxes e b) p).
  { exists (boxes e), (output_path e). now destruct e. }
  unfold run_iteration. destruct (draw e); [|exact Hsame].
  destruct k as [| | | | | [|] | |]; cbn [snd]; try exact Hsame.
  - destruct (save_boxes_frame wd e None) as [p Hp].
    destruct (save_boxes wd e None) as [[u | x] [wd1 e1]]; cbn [snd] in *;
      subst e1; exists (boxes e), p; now rewrite set_boxes_same.
  - destruct (py_truthy (boxes e)); [|exact Hsame].
    destruct (py_pop (boxes e)) as [b | x]; [|exact Hsame].
    exists b, (output_path e). now destruct e.
  - exists (PList []), (output_path e). now destruct e.
  - destruct (box_under_disp_point e (mouse_pos e)) as [[i |] | x]; try exact Hsame.
    destruct (py_pop_at (boxes e) i) as [b | x]; [|exact Hsame].
    exists b, (output_path e). now destruct e.
Qed.

Lemma BoxEditor_init_fields (wd : world) (img_path : string)
  (out_path load_path : option string) (e : BoxEditor) :
  BoxEditor_init wd img_path out_path load_path = Ok e ->
  image_path e = img_path /\
  drawing e = false /\ start_pt_disp e = None /\ cur_pt_disp e = None /\
  mouse_pos e = (0, 0) /\
  output_path e = str_or out_path (default_output_name img_path).
Proof.
  unfold BoxEditor_init.
  destruct (images wd !! img_path) as [img |]; [|discriminate].
  destruct (scale_for_display img MAX_DISPLAY_DIM) as [[disp s] | x];
    [cbn [rbind] | discriminate].
  set (e0 := mkBoxEditor _ _ _ _ _ _ _ _ _ _ _ _).
  destruct load_path as [[|c p] |]; intros [= <-]; cbn; auto 10.
  destruct (load_boxes_frame wd e0 (String c p)) as [b ->]. cbn. auto 10.
Qed.

Lemma mouse_callback_drag_consistent (e : BoxEditor) (event : mouse_event) (x y : Z) :
  drag_consistent e -> drag_consistent (snd (mouse_callback e event x y)).
Proof.
  destruct e as [ip h w s hd wd dr st cu bx op mp].
  unfold drag_consistent. cbn [drawing start_pt_disp cur_pt_disp].
  intros [Hd Hc]. unfold mouse_callback.
  cbn [drawing start_pt_disp set_mouse_pos].
  destruct event.
  - cbn. repeat split; intros; congruence.
  - destruct dr; cbn.
    + destruct st; [repeat split; intros; congruence|].
      exfalso. exact (proj1 Hd eq_refl eq_refl).
    + split; assumption.
  - destruct dr.
    + destruct st as [start|].
      * match goal with
        | |- context [add_box_from_disp ?e1 ?s ?t] =>
            destruct (add_box_from_disp_frame e1 s t) as [b Hb];
            destruct (add_box_from_disp e1 s t) as [[u | ex] e2]
        end; cbn [snd] in Hb; subst e2; cbn; repeat split; intros; congruence.
      * cbn. repeat split; intros; congruence.
    + cbn. repeat split; intros; congruence.
  - cbn. split; assumption.
Qed.

(** X14. In every state of a session the flag of the drag and its two
    points agree: the flag is set exactly when a start point is recorded,
    and a current point is recorded exactly when a start point is. This
    holds also after a callback or a turn of the loop that raised. *)
Theorem reachable_drag_consistent (wd : world) (e : BoxEditor) :
  reachable wd e -> drag_consistent e.
Proof.
  induction 1 as [wd ip op lp e Hinit Hh Hw | wd e ev x y Hr IH | wd e k Hr IH].
  - destruct (BoxEditor_init_fields _ _ _ _ _ Hinit) as (_ & Hd & Hs & Hc & _).
    unfold drag_consistent. rewrite Hd, Hs, Hc.
    repeat split; intros; congruence.
  - now apply mouse_callback_drag_consistent.
  - destruct (run_iteration_editor_frame wd e k) as (b & p & ->). exact IH.
Qed.

Lemma reachable_drag_consistent_witness :
  reachable wd0 (snd (mouse_callback scan_session EVENT_LBUTTONDOWN 100 100)) /\
  drawing (snd (mouse_callback scan_session EVENT_LBUTTONDOWN 100 100)) = true /\
  start_pt_disp (snd (mouse_callback scan_session EVENT_LBUTTONDOWN 100 100)) <> None.
Proof.
  assert (Hr : reachable wd0 (snd (mouse_callback scan_session EVENT_LBUTTONDOWN 100 100))).
  { apply reach_mouse.
    apply (reach_init wd0 "scan.png" None None);
      [vm_compute; reflexivity | cbn; lia | cbn; lia]. }
  split; [exact Hr|]. split; [reflexivity|].
  apply (proj1 (proj1 (reachable_drag_consistent _ _ Hr))). reflexivity.
Defined.

(** ** Construction *)

(** X15. When the image cannot be read, construction raises
    [FileNotFoundError], whatever the other arguments. The output path
    and the load path never decide whether construction fails, nor with
    what: it fails with them exactly when it fails with any others. A
    session that is constructed has the image path it was given, no drag
    in progress, the mouse at (0, 0), and as its output path the one it
    was given or, when that is absent or empty, the default name. *)
Theorem BoxEditor_init_failure_and_fields
  (wd : world) (img_path : string) (out_path load_path : option string) :
  (images wd !! img_path = None ->
   BoxEditor_init wd img_path out_path load_path = Raise FileNotFoundError) /\
  (forall x out_path' load_path',
     BoxEditor_init wd img_path out_path load_path = Raise x <->
     BoxEditor_init wd img_path out_path' load_path' = Raise x) /\
  (forall e, BoxEditor_init wd img_path out_path load_path = Ok e ->
             image_path e = img_path /\
             drawing e = false /\ start_pt_disp e = None /\ cur_pt_disp e = None /\
             mouse_pos e = (0, 0) /\
             output_path e = str_or out_path (default_output_name img_path)).
Proof.
  split; [|split; [|apply BoxEditor_init_fields]].
  - intros Himg. unfold BoxEditor_init. now rewrite Himg.
  - intros x out_path' load_path'. unfold BoxEditor_init.
    destruct (images wd !! img_path) as [img |]; [|tauto].
    destruct (scale_for_display img MAX_DISPLAY_DIM) as [[disp s] | x'];
      cbn [rbind]; [|tauto].
    destruct load_path as [[|c p] |]; destruct load_path' as [[|c' p'] |];
      split; discriminate.
Qed.

Lemma BoxEditor_init_failure_and_fields_witness :
  images wd0 !! "absent.png" = None /\
  BoxEditor_init wd0 "absent.png" (Some "out.json") (Some "boxes.json")
  = Raise FileNotFoundError.
Proof.
  split; [reflexivity|].
  apply (proj1 (BoxEditor_init_failure_and_fields wd0 "absent.png"
                  (Some "out.json") (Some "boxes.json"))).
  reflexivity.
Defined.

(** ** The displayed image *)

Lemma py_int_bounds (q : Q) (n : Z) :
  (0 <= q)%Q -> (q <= inject_Z n)%Q -> 0 <= py_int q <= n.
Proof.
  destruct q as [a b]. unfold Qle, py_int. cbn. intros Ha Hn.
  assert (Ha' : 0 <= a) by lia.
  split.
  - apply Z.quot_pos; lia.
  - rewrite Z.quot_div_nonneg by lia.
    apply Z.div_le_upper_bound; lia.
Qed.

Lemma scale_for_display_bounds (h w C hd wd : Z) (s : Q) :
  0 < h -> 0 < w -> 0 < C ->
  scale_for_display (h, w) C = Ok ((hd, wd), s) ->
  (0 < s)%Q /\ (s <= 1)%Q /\
  0 <= hd <= Z.min h C /\ 0 <= wd <= Z.min w C.
Proof.
  intros Hh Hw HC Hs.
  destruct (Z_le_gt_dec (Z.max h w) C) as [Hle | Hgt].
  - rewrite scale_for_display_small in Hs by assumption.
    injection Hs as <- <- <-. split; [reflexivity|]. split; [discriminate|]. lia.
  - unfold scale_for_display in Hs.
    destruct (Z.gtb_spec (Z.max h w) C); [|lia].
    rewrite fdiv_ok in Hs by (apply inject_Z_nonzero; lia).
    cbn [rbind] in Hs. injection Hs as <- <- <-.
    set (m := Z.max h w) in *.
    set (s := Qred (inject_Z C / inject_Z m)).
    assert (Hseq : (s == inject_Z C / inject_Z m)%Q) by apply Qred_correct.
    assert (Hm : (0 < inject_Z m)%Q).
    { change 0%Q with (inject_Z 0). rewrite <- Zlt_Qlt. lia. }
    assert (Hpos : (0 < s)%Q) by (rewrite Hseq; apply ratio_pos; lia).
    assert (Hle1 : (s <= 1)%Q) by (rewrite Hseq; apply ratio_le_1; lia).
    assert (Hsm : (s * inject_Z m == inject_Z C)%Q).
    { rewrite Hseq. unfold Qdiv.
      rewrite <- Qmult_assoc, (Qmult_comm (/ inject_Z m)), Qmult_inv_r by lra.
      apply Qmult_1_r. }
    assert (Hsm1 : (s * inject_Z m <= inject_Z C)%Q) by (rewrite Hsm; apply Qle_refl).
    assert (Hdim : forall d, 0 < d <= m ->
              0 <= py_int (fmul (inject_Z d) s) <= Z.min d C).
    { intros d Hd.
      assert (Hd0 : (0 <= inject_Z d)%Q).
      { change 0%Q with (inject_Z 0). rewrite <- Zle_Qle. lia. }
      assert (Hdm : (inject_Z d <= inject_Z m)%Q) by (rewrite <- Zle_Qle; lia).
      apply py_int_bounds; rewrite fmul_eq.
      - apply Qmult_le_0_compat; lra.
      - destruct (Z.min_spec d C) as [[_ ->] | [_ ->]]; nra. }
    split; [exact Hpos|]. split; [exact Hle1|].
    split; apply Hdim; lia.
Qed.

Lemma mouse_callback_editor_frame (e : BoxEditor) (event : mouse_event) (x y : Z) :
  session_constants (snd (mouse_callback e event x y)) = session_constants e.
Proof.
  unfold mouse_callback. destruct event; try reflexivity.
  - cbn [drawing set_mouse_pos]. now destruct (drawing e).
  - cbn [drawing start_pt_disp set_mouse_pos].
    destruct (drawing e); [|reflexivity].
    destruct (start_pt_disp e) as [start|]; [|reflexivity].
    match goal with
    | |- context [add_box_from_disp ?e1 ?s ?t] =>
        destruct (add_box_from_disp_frame e1 s t) as [b Hb];
        destruct (add_box_from_disp e1 s t) as [[u | ex] e2]
    end; cbn [snd] in Hb; subst e2; reflexivity.
Qed.

Lemma BoxEditor_init_shape (wd : world) (img_path : string)
  (out_path load_path : option string) (e : BoxEditor) :
  BoxEditor_init wd img_path out_path load_path = Ok e ->
  images wd !! img_path = Some (h_orig e, w_orig e) /\
  scale_for_display (h_orig e, w_orig e) MAX_DISPLAY_DIM
  = Ok ((h_disp e, w_disp e), scale e).
Proof.
  unfold BoxEditor_init.
  destruct (images wd !! img_path) as [[h w] |]; [|discriminate].
  destruct (scale_for_display (h, w) MAX_DISPLAY_DIM) as [[[hd wdd] s] | x] eqn:Hs;
    [cbn [rbind] | discriminate].
  set (e0 := mkBoxEditor _ _ _ _ _ _ _ _ _ _ _ _).
  destruct load_path as [[|c p] |]; intros [= <-]; cbn; auto.
  destruct (load_boxes_frame wd e0 (String c p)) as [b ->]. cbn. auto.
Qed.

(** X16. In every state of a session the scale is in (0, 1], and the
    displayed image is neither larger than the original nor larger than
    1000 pixels, in height and in width. *)
Theorem reachable_display_bounds (wd : world) (e : BoxEditor) :
  reachable wd e ->
  (0 < scale e)%Q /\ (scale e <= 1)%Q /\
  0 <= h_disp e <= Z.min (h_orig e) MAX_DISPLAY_DIM /\
  0 <= w_disp e <= Z.min (w_orig e) MAX_DISPLAY_DIM.
Proof.
  induction 1 as [wd ip op lp e Hinit Hh Hw | wd e ev x y Hr IH | wd e k Hr IH].
  - destruct (BoxEditor_init_shape _ _ _ _ _ Hinit) as [_ Hsc].
    exact (scale_for_display_bounds _ _ MAX_DISPLAY_DIM _ _ _ Hh Hw eq_refl Hsc).
  - pose proof (mouse_callback_editor_frame e ev x y) as Hc.
    unfold session_constants in Hc. injection Hc as _ -> -> -> -> ->. exact IH.
  - destruct (run_iteration_editor_frame wd e k) as (b & p & ->). exact IH.
Qed.

Lemma reachable_display_bounds_witness :
  reachable wd0 poster_session /\
  (scale poster_session <= 1)%Q /\ h_disp poster_session <= 1000.
Proof.
  assert (Hr : reachable wd0 poster_session).
  { apply (reach_init wd0 "poster.png" None None);
      [vm_compute; reflexivity | cbn; lia | cbn; lia]. }
  split; [exact Hr|].
  destruct (reachable_display_bounds wd0 poster_session Hr) as (_ & Hs & Hh & _).
  split; [exact Hs|]. unfold MAX_DISPLAY_DIM in Hh. lia.
Defined.

(** ** The default output name *)

Lemma append_cons (c : ascii) (a b : string) :
  (String c a ++ b = String c (a ++ b))%string.
Proof. reflexivity. Qed.

Lemma append_empty (b : string) : (EmptyString ++ b = b)%string.
Proof. reflexivity. Qed.

Lemma no_slash_app (a b : string) :
  no_slash (a ++ b) = no_slash a && no_slash b.
Proof.
  induction a as [|c a IH]; [reflexivity|].
  rewrite append_cons. cbn [no_slash]. rewrite IH. now rewrite andb_assoc.
Qed.

Lemma append_snoc (a : string) (c : ascii) (b : string) :
  ((a ++ String c EmptyString) ++ b = a ++ String c b)%string.
Proof.
  induction a as [|c' a IH]; [reflexivity|].
  now rewrite !append_cons, IH.
Qed.

Lemma after_last_slash_no_slash (p a : string) :
  no_slash a = true -> no_slash (after_last_slash p (a ++ p)) = true.
Proof.
  revert a. induction p as [|c p IH]; intros a Ha; cbn [after_last_slash].
  - rewrite no_slash_app, Ha. reflexivity.
  - destruct (is_slash c) eqn:Hc.
    + apply (IH EmptyString). reflexivity.
    + rewrite <- append_snoc. apply IH.
      rewrite no_slash_app, Ha. cbn. now rewrite Hc.
Qed.

Lemma basename_no_slash (p : string) : no_slash (basename p) = true.
Proof. apply (after_last_slash_no_slash p EmptyString). reflexivity. Qed.

Lemma after_last_slash_plain (n cur : string) :
  no_slash n = true -> after_last_slash n cur = cur.
Proof.
  revert cur. induction n as [|c n IH]; intros cur Hn; cbn in *; [reflexivity|].
  apply andb_true_iff in Hn as [Hc Hn].
  destruct (is_slash c); [discriminate | now apply IH].
Qed.

Lemma after_last_slash_dir (dir n cur : string) :
  no_slash n = true ->
  after_last_slash (dir ++ String "/" n) cur = n.
Proof.
  intros Hn. revert cur. induction dir as [|c dir IH]; intros cur.
  - rewrite append_empty. cbn [after_last_slash is_slash Ascii.eqb].
    change (is_slash "/") with true. cbn iota.
    now apply after_last_slash_plain.
  - rewrite append_cons. cbn [after_last_slash].
    destruct (is_slash c); apply IH.
Qed.

Lemma substring_prefix (i : nat) (p : string) :
  String.prefix (String.substring 0 i p) p = true.
Proof.
  revert i. induction p as [|c p IH]; intros [|i]; cbn; try reflexivity.
  destruct (Ascii.ascii_dec c c); [apply IH | contradiction].
Qed.

Lemma prefix_no_slash (a p : string) :
  String.prefix a p = true -> no_slash p = true -> no_slash a = true.
Proof.
  revert p. induction a as [|c a IH]; intros [|c' p]; cbn; try tauto; try discriminate.
  destruct (Ascii.ascii_dec c c') as [<- | _]; [|discriminate].
  intros Hpre Hp. apply andb_true_iff in Hp as [Hc Hp].
  rewrite Hc. cbn. now apply (IH p).
Qed.

Lemma prefix_refl (p : string) : String.prefix p p = true.
Proof.
  induction p as [|c p IH]; cbn; [reflexivity|].
  destruct (Ascii.ascii_dec c c); [exact IH | contradiction].
Qed.

Lemma splitext_root_prefix (p : string) :
  String.prefix (splitext_root p) p = true /\
  (p <> EmptyString -> splitext_root p <> EmptyString).
Proof.
  unfold splitext_root.
  destruct (rfind_dot p 0 None) as [i|]; [|split; [apply prefix_refl | auto]].
  destruct (all_dots (String.substring 0 i p)) eqn:Hd;
    [split; [apply prefix_refl | auto]|].
  split; [apply substring_prefix|].
  intros _ He. rewrite He in Hd. discriminate.
Qed.

(** X17. The default output name depends only on the last component of
    the image path and contains no slash, so the default file is in the
    working directory, not beside the image. It is [_boxes.json] after a
    root that is a prefix of that component, and the root is empty only
    when the component is. *)
Theorem default_output_name_in_working_directory (img_path : string) :
  no_slash (default_output_name img_path) = true /\
  (forall dir name,
     no_slash name = true ->
     default_output_name (dir ++ String "/" name) = default_output_name name) /\
  exists root,
    default_output_name img_path = (root ++ "_boxes.json")%string /\
    String.prefix root (basename img_path) = true /\
    (basename img_path <> EmptyString -> root <> EmptyString).
Proof.
  split; [|split].
  - unfold default_output_name. rewrite no_slash_app.
    destruct (splitext_root_prefix (basename img_path)) as [Hpre _].
    rewrite (prefix_no_slash _ _ Hpre (basename_no_slash img_path)). reflexivity.
  - intros dir name Hn. unfold default_output_name, basename.
    rewrite (after_last_slash_dir dir name _ Hn).
    now rewrite (after_last_slash_plain name name Hn).
  - exists (splitext_root (basename img_path)).
    split; [reflexivity|]. apply splitext_root_prefix.
Qed.

Lemma default_output_name_in_working_directory_witness :
  no_slash "a.b.png" = true /\
  default_output_name ("scans/2024" ++ String "/" "a.b.png") = "a.b_boxes.json".
Proof.
  split; [reflexivity|].
  rewrite (proj1 (proj2 (default_output_name_in_working_directory "x"))
             "scans/2024" "a.b.png" eq_refl).
  reflexivity.
Defined.

(** ** Errors of a drag *)

(** X18. [disp_to_orig] never raises, also with a scale of 0, where the
    division is skipped. [add_box_from_disp] raises only when the session
    holds under [boxes] a value that is not a list and the drag is not
    degenerate, the two ends differing on both axes once taken to the
    image; the exception is then [AttributeError] and the session is as
    it was. With a list it never raises, and a degenerate drag raises
    nothing and changes nothing whatever [boxes] holds. *)
Theorem add_box_from_disp_raises_only_without_list
  (e : BoxEditor) (start stop : point) :
  (exists p, disp_to_orig e start = Ok p) /\
  (forall l, boxes e = PList l -> fst (add_box_from_disp e start stop) = Ok tt) /\
  (forall x e',
     add_box_from_disp e start stop = (Raise x, e') ->
     x = AttributeError /\ e' = e /\ (forall l, boxes e <> PList l) /\
     exists x0 y0 x1 y1,
       disp_to_orig e start = Ok (x0, y0) /\ disp_to_orig e stop = Ok (x1, y1) /\
       x0 <> x1 /\ y0 <> y1) /\
  (forall x0 y0 x1 y1,
     disp_to_orig e start = Ok (x0, y0) -> disp_to_orig e stop = Ok (x1, y1) ->
     x0 = x1 \/ y0 = y1 ->
     add_box_from_disp e start stop = (Ok tt, e)).
Proof.
  split; [apply disp_to_orig_total|].
  destruct (disp_to_orig_total e start) as [[x0 y0] H0].
  destruct (disp_to_orig_total e stop) as [[x1 y1] H1].
  rewrite (add_box_from_disp_eq e start stop _ _ _ _ H0 H1).
  split; [|split].
  - intros l Hl. rewrite Hl. cbn [py_append]. now destruct (_ && _).
  - intros x e'.
    destruct (Z.ltb_spec 0 (Z.abs (x1 - x0)));
      destruct (Z.ltb_spec 0 (Z.abs (y1 - y0))); cbn [andb]; try discriminate.
    destruct (boxes e) as [| b | z | q | s | l | d] eqn:Hb; cbn [py_append];
      intros [= <- <-];
      (split; [reflexivity|]); (split; [reflexivity|]);
      (split; [discriminate|]);
      exists x0, y0, x1, y1; repeat split; try assumption; lia.
  - intros a0 b0 a1 b1 Ha Hb Hdeg.
    rewrite H0 in Ha. rewrite H1 in Hb.
    injection Ha as <- <-. injection Hb as <- <-.
    destruct (Z.ltb_spec 0 (Z.abs (x1 - x0)));
      destruct (Z.ltb_spec 0 (Z.abs (y1 - y0))); cbn [andb]; try reflexivity.
    lia.
Qed.

Lemma add_box_from_disp_raises_only_without_list_witness :
  let e := snd (load_boxes wd2 scan_session "broken.json") in
  boxes e = PInt 5 /\
  add_box_from_disp e (100, 100) (300, 200) = (Raise AttributeError, e) /\
  disp_to_orig e (100, 100) = Ok (200, 200) /\
  disp_to_orig e (100, 200) = Ok (200, 400) /\
  add_box_from_disp e (100, 100) (100, 200) = (Ok tt, e).
Proof.
  intros e.
  assert (H0 : disp_to_orig e (100, 100) = Ok (200, 200)) by reflexivity.
  assert (H1 : disp_to_orig e (100, 200) = Ok (200, 400)) by reflexivity.
  split; [reflexivity|]. split; [reflexivity|].
  split; [exact H0|]. split; [exact H1|].
  apply (proj2 (proj2 (proj2
           (add_box_from_disp_raises_only_without_list e (100, 100) (100, 200))))
           200 200 200 400 H0 H1).
  left. reflexivity.
Defined.

(** ** Sessions that only hold drawn boxes *)










